(** * degenbot: simulation of Uniswap router transactions

    A shallow embedding of [transaction/uniswap_transaction.py]: the class
    [UniswapTransaction], its method [simulate] with the nested drivers
    [v2_swap_exact_in], [v2_swap_exact_out], [v3_swap_exact_in] and
    [v3_swap_exact_out], the encoded-path decoding of [exactInput] and
    [exactOutput], and [simulate_multicall].

    Python integers are [Z].  Exceptions are values of [exn]; a computation
    ends in [Ok], in [Raise] or does not end ([Diverge], for the one loop of
    the source that has no bound).  The pool managers, the token manager, the
    pool simulators and the ABI decoders are code of other modules: they are
    fields of a record [collaborators].  Every call of a pool simulator is
    recorded in a log, so that the quantities handed from one hop to the next
    can be observed. *)

From Stdlib Require Import ZArith List Bool Lia PeanoNat.
From Stdlib.Strings Require Import String Ascii Byte.
Import ListNotations.
Local Open Scope string_scope.
Local Open Scope list_scope.
Local Open Scope Z_scope.

(** ** Values, pools and exceptions *)

Definition address := string.

(** An element of a positional parameter tuple, as the ABI decoder of web3
    hands it over. *)
Inductive pyval :=
| VNone
| VInt (z : Z)
| VStr (s : string)
| VBytes (b : list byte).

(** [Erc20Token] helpers are created once per address by the token manager;
    the drivers compare them with [is]. *)
Record Erc20Token := { token_address : address }.

Definition token_is (a b : Erc20Token) : bool :=
  String.eqb (token_address a) (token_address b).

(** The [state] dictionary of a V2 pool. *)
Record v2_state := {
  reserves_token0 : Z;
  reserves_token1 : Z
}.

Record LiquidityPool := {
  pool_address : address;
  token0 : Erc20Token;
  token1 : Erc20Token;
  state : v2_state
}.

(** The [swap_info] and state dictionaries of a V3 pool. *)
Record v3_swap_info := {
  amount0_delta : Z;
  amount1_delta : Z
}.

Record v3_state := {
  liquidity : Z;
  sqrt_price_x96 : Z;
  tick : Z
}.

Record V3LiquidityPool := {
  v3_address : address;
  v3_token0 : Erc20Token;
  v3_token1 : Erc20Token;
  v3_fee : Z
}.

(** One element of the list [simulate] returns: a pool and its predicted
    state. *)
Inductive entry :=
| V2Entry (pool : LiquidityPool) (future : v2_state)
| V3Entry (pool : V3LiquidityPool) (future : v3_state).

(** The messages of the [ValueError]s the source can meet. *)
Inductive value_error :=
| SwapDirectionNotIdentified   (* "Swap direction could not be identified" *)
| NotEnoughValuesToUnpack      (* "not enough values to unpack (expected 3, got n)" *)
| TooManyValuesToUnpack        (* "too many values to unpack (expected 3)" *)
| OtherValueError.             (* raised by a collaborator *)

(** Exceptions.  The argument of [TransactionError] stands for its message. *)
Inductive exn :=
| LiquidityPoolError
| EVMRevertError
| ManagerError
| ValueError (m : value_error)
| TypeError
| AttributeError
| IndexError
| UnboundLocalError
| RecursionError
| TransactionError (m : tx_message)
with tx_message :=
| PoolNotBuilt (a b : address)     (* "LiquidityPool could not be build for token pair a - b" *)
| CouldNotGetPool (e : exn)        (* "Could not get pool (via tokens): e" *)
| V3NotSimulated (e : exn)         (* "V3 operation could not be simulated: e" *)
| AmountInBelow (amountIn amountInMaximum : Z)
                                   (* "amountIn (..) < amountOutMin (..)" *)
| NotCalculated (e : exn)          (* "Transaction could not be calculated: e" *)
| MulticallNotDecoded (e : exn).   (* "Could not decode multicall: e" *)

Inductive outcome (A : Type) :=
| Ok (a : A)
| Raise (e : exn)
| Diverge.
Arguments Ok {A} a.
Arguments Raise {A} e.
Arguments Diverge {A}.

(** ** Calls of the pool simulators *)

Inductive sim_call :=
| V2SwapIn (pool : LiquidityPool) (token_in : Erc20Token) (token_in_quantity : Z)
| V2SwapOut (pool : LiquidityPool) (token_out : Erc20Token) (token_out_quantity : Z)
| V3SwapIn (pool : V3LiquidityPool) (token_in : Erc20Token) (token_in_quantity : pyval)
| V3SwapOut (pool : V3LiquidityPool) (token_out : Erc20Token)
            (token_out_quantity : pyval) (sqrt_price_limit : pyval).

(** ** The monad of the drivers: a log of simulator calls and an outcome *)

Definition M (A : Type) := list sim_call -> outcome A * list sim_call.

Definition ret {A} (a : A) : M A := fun log => (Ok a, log).

Definition raise {A} (e : exn) : M A := fun log => (Raise e, log).

Definition bind {A B} (m : M A) (k : A -> M B) : M B :=
  fun log =>
    match m log with
    | (Ok a, log') => k a log'
    | (Raise e, log') => (Raise e, log')
    | (Diverge, log') => (Diverge, log')
    end.

(** [try: m except ...: h e]; [h] decides per exception what to do. *)
Definition try_except {A} (m : M A) (h : exn -> M A) : M A :=
  fun log =>
    match m log with
    | (Raise e, log') => h e log'
    | r => r
    end.

Definition lift {A} (o : outcome A) : M A := fun log => (o, log).

Definition record_call (c : sim_call) : M unit := fun log => (Ok tt, log ++ [c]).

Notation "x <- m ;; k" := (bind m (fun x => k))
  (at level 61, m at next level, right associativity).
Notation "' pat <- m ;; k" := (bind m (fun x => match x with pat => k end))
  (at level 61, pat pattern, m at next level, right associativity).

(** Reading a local name: [None] is a name no assignment has bound yet. *)
Definition read_var {A} (v : option A) : M A :=
  match v with
  | Some a => ret a
  | None => raise UnboundLocalError
  end.

(** Run a driver from an empty log. *)
Definition run {A} (m : M A) : outcome A * list sim_call := m [].

(** ** Path decoding ([exactInput] and [exactOutput])

    [bytes.hex()] and [int(s, 16)]. *)

Definition hex_digit (n : N) : ascii :=
  match n with
  | 0%N => "0" | 1%N => "1" | 2%N => "2" | 3%N => "3"
  | 4%N => "4" | 5%N => "5" | 6%N => "6" | 7%N => "7"
  | 8%N => "8" | 9%N => "9" | 10%N => "a" | 11%N => "b"
  | 12%N => "c" | 13%N => "d" | 14%N => "e" | _ => "f"
  end%char.

Fixpoint hex (b : list byte) : string :=
  match b with
  | [] => EmptyString
  | x :: rest =>
      String (hex_digit (Byte.to_N x / 16))
        (String (hex_digit (Byte.to_N x mod 16)) (hex rest))
  end.

Definition digit_value (c : ascii) : option Z :=
  let n := Z.of_N (N_of_ascii c) in
  if (48 <=? n) && (n <=? 57) then Some (n - 48)
  else if (97 <=? n) && (n <=? 102) then Some (n - 87)
  else if (65 <=? n) && (n <=? 70) then Some (n - 55)
  else None.

Fixpoint int16_from (acc : Z) (s : string) : option Z :=
  match s with
  | EmptyString => Some acc
  | String c rest =>
      match digit_value c with
      | Some d => int16_from (acc * 16 + d) rest
      | None => None
      end
  end.

(** [int(s, 16)]: a [ValueError] on the empty string and on a character that
    is no hexadecimal digit. *)
Definition int16 (s : string) : outcome Z :=
  match s with
  | EmptyString => Raise (ValueError OtherValueError)
  | _ => match int16_from 0 s with
         | Some z => Ok z
         | None => Raise (ValueError OtherValueError)
         end
  end.

(** [path[path_pos : path_pos + byte_length]] *)
Definition slice (path : list byte) (path_pos byte_length : nat) : list byte :=
  firstn byte_length (skipn path_pos path).

(** The successor of a chunk length in [itertools.cycle((20, 3))]. *)
Definition next_length (byte_length : nat) : nat :=
  if Nat.eqb byte_length 20 then 3%nat else 20%nat.

(** The loop [for byte_length in itertools.cycle((20, 3))].  The cycle has no
    end and the loop leaves only through [break]; [fuel] bounds the number of
    iterations, and [Diverge] is the answer when it is used up. *)
Fixpoint decode_loop (fuel : nat) (path : list byte) (path_pos byte_length : nat)
    (decoded : list pyval) : outcome (list pyval) :=
  match fuel with
  | O => Diverge
  | S fuel' =>
      if Nat.eqb path_pos (List.length path) then Ok decoded
      else if Nat.eqb byte_length 20
              && Nat.leb (path_pos + byte_length) (List.length path) then
        decode_loop fuel' path (path_pos + byte_length) (next_length byte_length)
          (decoded ++ [VStr (hex (slice path path_pos byte_length))])
      else if Nat.eqb byte_length 3
              && Nat.leb (path_pos + byte_length) (List.length path) then
        match int16 (hex (slice path path_pos byte_length)) with
        | Ok fee =>
            decode_loop fuel' path (path_pos + byte_length) (next_length byte_length)
              (decoded ++ [VInt fee])
        | Raise e => Raise e
        | Diverge => Diverge
        end
      else
        decode_loop fuel' path (path_pos + byte_length) (next_length byte_length)
          decoded
  end.

Definition decode_path (fuel : nat) (path : list byte) : outcome (list pyval) :=
  decode_loop fuel path 0 20 [].

(** ** Parameters, collaborators and the transaction *)

Definition payload := list byte.

(** The dictionary [func_params] with the keys the source reads: ["path"],
    ["amountIn"] and ["amountOut"] of the V2 router functions, the positional
    tuple ["params"] of the V3 router functions ([None] when the key is
    absent) and ["data"] of [multicall]. *)
Record params_dict := {
  path : list address;
  amountIn : Z;
  amountOut : Z;
  params : option (list pyval);
  data : list payload
}.

(** Code of other modules.  The V2 simulator returns [(swap_info,
    future_state)]; the V2 drivers never read [swap_info], which is left out.
    [decode_router] and [decode_router2] are
    [decode_function_input] under [UNISWAP_V3_ROUTER_ABI] and
    [UNISWAP_V3_ROUTER2_ABI] and give [(fn_name, arguments)]. *)
Record collaborators := {
  get_erc20token : pyval -> bool -> outcome Erc20Token;
  v2_simulate_swap_in : LiquidityPool -> Erc20Token -> Z -> outcome v2_state;
  v2_simulate_swap_out : LiquidityPool -> Erc20Token -> Z -> outcome v2_state;
  v3_simulate_swap_in :
    V3LiquidityPool -> Erc20Token -> pyval -> outcome (v3_swap_info * v3_state);
  v3_simulate_swap_out :
    V3LiquidityPool -> Erc20Token -> pyval -> pyval ->
    outcome (v3_swap_info * v3_state);
  decode_router : payload -> outcome (string * params_dict);
  decode_router2 : payload -> outcome (string * params_dict)
}.

(** [get_pool] of the two pool managers. *)
Definition V2Manager := address -> address -> bool -> outcome LiquidityPool.
Definition V3Manager := pyval -> pyval -> pyval -> bool -> outcome V3LiquidityPool.

(** The attributes [__init__] sets.  A manager is absent ([None]) when the
    router has no factory of that version: the constructor passes over the
    failed lookup, and reading the attribute later is an [AttributeError]. *)
Record UniswapTransaction := {
  hash : string;
  nonce : Z;
  value : Z;
  func_name : string;
  func_params : params_dict;
  v2_pool_manager : option V2Manager;
  v3_pool_manager : option V3Manager
}.

Definition read_attr {A} (a : option A) : M A :=
  match a with
  | Some x => ret x
  | None => raise AttributeError
  end.

(** [itertools.pairwise] *)
Fixpoint pairwise {A} (l : list A) : list (A * A) :=
  match l with
  | a :: (b :: _) as rest => (a, b) :: pairwise rest
  | _ => []
  end.

(** [l[0]] and [l[-1]] *)
Definition first_item {A} (l : list A) : M A :=
  match l with
  | a :: _ => ret a
  | [] => raise IndexError
  end.

Definition last_item {A} (l : list A) : M A :=
  match rev l with
  | a :: _ => ret a
  | [] => raise IndexError
  end.

Section Drivers.

Variable C : collaborators.
Variable self : UniswapTransaction.

(** ** The V2 drivers *)

(** The first loop of both V2 drivers: one pool per consecutive pair of the
    path; a [LiquidityPoolError] of the manager becomes a
    [TransactionError]. *)
Fixpoint v2_pool_objects (pairs : list (address * address)) (silent : bool)
    (pool_objects : list LiquidityPool) : M (list LiquidityPool) :=
  match pairs with
  | [] => ret pool_objects
  | (a, b) :: rest =>
      pool_helper <-
        try_except
          (get_pool <- read_attr (v2_pool_manager self) ;;
           lift (get_pool a b silent))
          (fun e =>
             match e with
             | LiquidityPoolError => raise (TransactionError (PoolNotBuilt a b))
             | _ => raise e
             end) ;;
      v2_pool_objects rest silent (pool_objects ++ [pool_helper])
  end.

(** The comparison of the reserves in [v2_swap_exact_in]: the reserve that
    went down gives [token_out_quantity]. *)
Definition reserve_decrease (current_state future_state : v2_state) : M Z :=
  if reserves_token0 future_state <? reserves_token0 current_state then
    ret (reserves_token0 current_state - reserves_token0 future_state)
  else if reserves_token1 future_state <? reserves_token1 current_state then
    ret (reserves_token1 current_state - reserves_token1 future_state)
  else raise (ValueError SwapDirectionNotIdentified).

(** The comparison of the reserves in [v2_swap_exact_out]: the reserve that
    went up gives [token_in_quantity]. *)
Definition reserve_increase (current_state future_state : v2_state) : M Z :=
  if reserves_token0 future_state >? reserves_token0 current_state then
    ret (reserves_token0 future_state - reserves_token0 current_state)
  else if reserves_token1 future_state >? reserves_token1 current_state then
    ret (reserves_token1 future_state - reserves_token1 current_state)
  else raise (ValueError SwapDirectionNotIdentified).

(** The second loop of [v2_swap_exact_in],
    [for i, v2_pool in enumerate(v2_pool_objects)].  [token_in], [token_out]
    and [token_out_quantity] are the names that live across iterations;
    [token_out_quantity] is unbound before the first one.  The [print] lines
    under [if not silent] read names that are bound at that point and change
    nothing. *)
Fixpoint v2_exact_in_loop (pools : list LiquidityPool) (i : nat)
    (swap_in_quantity : Z) (token_in token_out : Erc20Token)
    (token_out_quantity : option Z) (future_pool_states : list entry)
    : M (list entry) :=
  match pools with
  | [] => ret future_pool_states
  | v2_pool :: rest =>
      token_in_quantity <-
        (if Nat.eqb i 0 then ret swap_in_quantity
         else read_var token_out_quantity) ;;
      let token_in := if Nat.eqb i 0 then token_in else token_out in
      let token_out :=
        if token_is token_in (token1 v2_pool) then token0 v2_pool
        else token1 v2_pool in
      let current_state := state v2_pool in
      _ <- record_call (V2SwapIn v2_pool token_in token_in_quantity) ;;
      future_state <- lift (v2_simulate_swap_in C v2_pool token_in token_in_quantity) ;;
      token_out_quantity <- reserve_decrease current_state future_state ;;
      v2_exact_in_loop rest (S i) swap_in_quantity token_in token_out
        (Some token_out_quantity)
        (future_pool_states ++ [V2Entry v2_pool future_state])
  end.

Definition v2_swap_exact_in (params : params_dict) (unwrapped_input silent : bool)
    : M (list entry) :=
  v2_pool_objects <- v2_pool_objects (pairwise (path params)) silent [] ;;
  a_in <- first_item (path params) ;;
  token_in <- lift (get_erc20token C (VStr a_in) silent) ;;
  a_out <- last_item (path params) ;;
  token_out <- lift (get_erc20token C (VStr a_out) silent) ;;
  let swap_in_quantity :=
    if unwrapped_input then value self else amountIn params in
  v2_exact_in_loop v2_pool_objects 0 swap_in_quantity token_in token_out None [].

(** The second loop of [v2_swap_exact_out],
    [for i, pool in enumerate(pool_objects[::-1])].  On every iteration but
    the first the source assigns [token_out_quantity] to itself. *)
Fixpoint v2_exact_out_loop (pools : list LiquidityPool) (i : nat)
    (swap_out_quantity : Z) (token_in token_out : Erc20Token)
    (token_out_quantity : option Z) (future_pool_states : list entry)
    : M (list entry) :=
  match pools with
  | [] => ret future_pool_states
  | pool :: rest =>
      token_out_quantity <-
        (if Nat.eqb i 0 then ret swap_out_quantity
         else read_var token_out_quantity) ;;
      let token_out := if Nat.eqb i 0 then token_out else token_in in
      let token_in :=
        if token_is token_out (token1 pool) then token0 pool
        else token1 pool in
      let current_state := state pool in
      _ <- record_call (V2SwapOut pool token_out token_out_quantity) ;;
      future_state <- lift (v2_simulate_swap_out C pool token_out token_out_quantity) ;;
      token_in_quantity <- reserve_increase current_state future_state ;;
      v2_exact_out_loop rest (S i) swap_out_quantity token_in token_out
        (Some token_out_quantity)
        (future_pool_states ++ [V2Entry pool future_state])
  end.

(** [swap_in_quantity] is bound to [self.value] under [unwrapped_input] and
    read nowhere: the comparison with [token_in_quantity] after the loop is
    commented out in the source. *)
Definition v2_swap_exact_out (params : params_dict) (unwrapped_input silent : bool)
    : M (list entry) :=
  pool_objects <- v2_pool_objects (pairwise (path params)) silent [] ;;
  a_in <- first_item (path params) ;;
  token_in <- lift (get_erc20token C (VStr a_in) silent) ;;
  a_out <- last_item (path params) ;;
  token_out <- lift (get_erc20token C (VStr a_out) silent) ;;
  let swap_out_quantity := amountOut params in
  let swap_in_quantity :=
    if unwrapped_input then Some (value self) else None in
  v2_exact_out_loop (rev pool_objects) 0 swap_out_quantity token_in token_out
    None [].

(** ** The V3 single-hop drivers *)

(** The names the three unpacking attempts of the V3 drivers bind and the
    code reads afterwards; [recipient], [deadline] and [amountOutMinimum] are
    bound too and never read.  An attempt whose arity does not fit the tuple
    (or a missing tuple) raises inside its [try] and binds nothing. *)
Record v3_names := {
  n_tokenIn : option pyval;
  n_tokenOut : option pyval;
  n_fee : option pyval;
  n_amount : option pyval;            (* amountIn, or amountOut for exact-out *)
  n_amountInMaximum : option pyval;
  n_sqrtPriceLimitX96 : option pyval
}.

Definition unpack_exact_in (t : option (list pyval)) : v3_names :=
  let names := {| n_tokenIn := None; n_tokenOut := None; n_fee := None;
                  n_amount := None; n_amountInMaximum := None;
                  n_sqrtPriceLimitX96 := None |} in
  (* Router ABI *)
  let names :=
    match t with
    | Some [tokenIn; tokenOut; fee; recipient; deadline; amountIn;
            amountOutMinimum; sqrtPriceLimitX96] =>
        {| n_tokenIn := Some tokenIn; n_tokenOut := Some tokenOut;
           n_fee := Some fee; n_amount := Some amountIn;
           n_amountInMaximum := n_amountInMaximum names;
           n_sqrtPriceLimitX96 := Some sqrtPriceLimitX96 |}
    | _ => names
    end in
  (* Router2 ABI *)
  let names :=
    match t with
    | Some [tokenIn; tokenOut; fee; recipient; amountIn; amountOutMinimum;
            sqrtPriceLimitX96] =>
        {| n_tokenIn := Some tokenIn; n_tokenOut := Some tokenOut;
           n_fee := Some fee; n_amount := Some amountIn;
           n_amountInMaximum := n_amountInMaximum names;
           n_sqrtPriceLimitX96 := Some sqrtPriceLimitX96 |}
    | _ => names
    end in
  (* values from exactInput (hand-crafted) *)
  match t with
  | Some [tokenIn; tokenOut; fee; amountIn] =>
      {| n_tokenIn := Some tokenIn; n_tokenOut := Some tokenOut;
         n_fee := Some fee; n_amount := Some amountIn;
         n_amountInMaximum := n_amountInMaximum names;
         n_sqrtPriceLimitX96 := n_sqrtPriceLimitX96 names |}
  | _ => names
  end.

Definition unpack_exact_out (t : option (list pyval)) : v3_names :=
  (* sqrtPriceLimitX96 = None; amountInMaximum = None *)
  let names := {| n_tokenIn := None; n_tokenOut := None; n_fee := None;
                  n_amount := None; n_amountInMaximum := Some VNone;
                  n_sqrtPriceLimitX96 := Some VNone |} in
  (* Router ABI *)
  let names :=
    match t with
    | Some [tokenIn; tokenOut; fee; recipient; deadline; amountOut;
            amountInMaximum; sqrtPriceLimitX96] =>
        {| n_tokenIn := Some tokenIn; n_tokenOut := Some tokenOut;
           n_fee := Some fee; n_amount := Some amountOut;
           n_amountInMaximum := Some amountInMaximum;
           n_sqrtPriceLimitX96 := Some sqrtPriceLimitX96 |}
    | _ => names
    end in
  (* Router2 ABI *)
  let names :=
    match t with
    | Some [tokenIn; tokenOut; fee; recipient; amountOut; amountInMaximum;
            sqrtPriceLimitX96] =>
        {| n_tokenIn := Some tokenIn; n_tokenOut := Some tokenOut;
           n_fee := Some fee; n_amount := Some amountOut;
           n_amountInMaximum := Some amountInMaximum;
           n_sqrtPriceLimitX96 := Some sqrtPriceLimitX96 |}
    | _ => names
    end in
  (* values from exactOutput (hand-crafted) *)
  match t with
  | Some [tokenIn; tokenOut; fee; amountOut] =>
      {| n_tokenIn := Some tokenIn; n_tokenOut := Some tokenOut;
         n_fee := Some fee; n_amount := Some amountOut;
         n_amountInMaximum := n_amountInMaximum names;
         n_sqrtPriceLimitX96 := n_sqrtPriceLimitX96 names |}
  | _ => names
  end.

(** [self.v3_pool_manager.get_pool(...)] under its [try]: a [ManagerError] or
    [LiquidityPoolError] becomes a [TransactionError], anything else is raised
    again. *)
Definition v3_get_pool (names : v3_names) (silent : bool) : M V3LiquidityPool :=
  try_except
    (get_pool <- read_attr (v3_pool_manager self) ;;
     tokenIn <- read_var (n_tokenIn names) ;;
     tokenOut <- read_var (n_tokenOut names) ;;
     fee <- read_var (n_fee names) ;;
     lift (get_pool tokenIn tokenOut fee silent))
    (fun e =>
       match e with
       | ManagerError | LiquidityPoolError =>
           raise (TransactionError (CouldNotGetPool e))
       | _ => raise e
       end).

(** The handler of the two [simulate_swap] calls. *)
Definition on_revert {A} (e : exn) : M A :=
  match e with
  | EVMRevertError => raise (TransactionError (V3NotSimulated e))
  | _ => raise e
  end.

(** Returns the one-element list [[(v3_pool, final_state)]]. *)
Definition v3_swap_exact_in (params_ : params_dict) (silent : bool)
    : M (list entry) :=
  let names := unpack_exact_in (params params_) in
  v3_pool <- v3_get_pool names silent ;;
  token_in_object <-
    (tokenIn <- read_var (n_tokenIn names) ;;
     lift (get_erc20token C tokenIn silent)) ;;
  '(swap_info, final_state) <-
    try_except
      (amountIn <- read_var (n_amount names) ;;
       _ <- record_call (V3SwapIn v3_pool token_in_object amountIn) ;;
       lift (v3_simulate_swap_in C v3_pool token_in_object amountIn))
      on_revert ;;
  ret [V3Entry v3_pool final_state].

(** Truth value of a parameter, for [if amountInMaximum and ...]. *)
Definition truthy (v : pyval) : bool :=
  match v with
  | VNone => false
  | VInt z => negb (z =? 0)
  | VStr s => negb (String.eqb s "")
  | VBytes b => negb (Nat.eqb (List.length b) 0)
  end.

(** [amountIn = max(swap_info["amount0_delta"], swap_info["amount1_delta"])] *)
Definition exact_out_amountIn (swap_info : v3_swap_info) : Z :=
  Z.max (amount0_delta swap_info) (amount1_delta swap_info).

(** [if amountInMaximum and amountIn < amountInMaximum: raise TransactionError];
    comparing an integer with a string or with bytes is a [TypeError]. *)
Definition check_amountInMaximum (amountInMaximum : pyval) (amountIn : Z) : M unit :=
  if truthy amountInMaximum then
    match amountInMaximum with
    | VInt bound =>
        if amountIn <? bound
        then raise (TransactionError (AmountInBelow amountIn bound))
        else ret tt
    | _ => raise TypeError
    end
  else ret tt.

(** Returns the one-element list [[(v3_pool, final_state)]]. *)
Definition v3_swap_exact_out (params_ : params_dict) (silent : bool)
    : M (list entry) :=
  let names := unpack_exact_out (params params_) in
  v3_pool <- v3_get_pool names silent ;;
  token_out_object <-
    (tokenOut <- read_var (n_tokenOut names) ;;
     lift (get_erc20token C tokenOut silent)) ;;
  '(swap_info, final_state) <-
    try_except
      (amountOut <- read_var (n_amount names) ;;
       sqrtPriceLimitX96 <- read_var (n_sqrtPriceLimitX96 names) ;;
       _ <- record_call
              (V3SwapOut v3_pool token_out_object amountOut sqrtPriceLimitX96) ;;
       lift (v3_simulate_swap_out C v3_pool token_out_object amountOut
               sqrtPriceLimitX96))
      on_revert ;;
  let amountIn := exact_out_amountIn swap_info in
  amountInMaximum <- read_var (n_amountInMaximum names) ;;
  _ <- check_amountInMaximum amountInMaximum amountIn ;;
  ret [V3Entry v3_pool final_state].

(** ** The encoded-path branches of [simulate] *)

(** The names bound by the two unpacking attempts of the [exactInput] and
    [exactOutput] branches: [exactInputParams_path], [.._recipient],
    [.._deadline], [.._amountIn] and [.._amountOutMinimum] (for [exactOutput]:
    [.._amountOut] and [.._amountInMaximum]).  The four-field shape binds no
    deadline. *)
Record path_names := {
  p_path : option pyval;
  p_recipient : option pyval;
  p_deadline : option pyval;
  p_amount : option pyval;
  p_limit : option pyval
}.

Definition unpack_path_params (t : option (list pyval)) : path_names :=
  let names := {| p_path := None; p_recipient := None; p_deadline := None;
                  p_amount := None; p_limit := None |} in
  (* Router ABI *)
  let names :=
    match t with
    | Some [path; recipient; deadline; amount; limit] =>
        {| p_path := Some path; p_recipient := Some recipient;
           p_deadline := Some deadline; p_amount := Some amount;
           p_limit := Some limit |}
    | _ => names
    end in
  (* Router2 ABI *)
  match t with
  | Some [path; recipient; amount; limit] =>
      {| p_path := Some path; p_recipient := Some recipient;
         p_deadline := p_deadline names; p_amount := Some amount;
         p_limit := Some limit |}
  | _ => names
  end.

(** [len(path)] and the slices with [.hex()] need a [bytes] object, which is
    what the ABI decoder gives for the [path] field; another value is
    answered with [TypeError]. *)
Definition decode_path_value (fuel : nat) (v : pyval) : M (list pyval) :=
  match v with
  | VBytes b => lift (decode_path fuel b)
  | _ => raise TypeError
  end.

(** The block under [if not silent] after the decoding: it reads the five
    names, among them the deadline. *)
Definition print_path_params (names : path_names) : M unit :=
  _ <- read_var (p_recipient names) ;;
  _ <- read_var (p_deadline names) ;;
  _ <- read_var (p_amount names) ;;
  _ <- read_var (p_limit names) ;;
  ret tt.

(** [range(0, stop, 2)] *)
Definition range_step2 (stop : Z) : list nat :=
  map (fun j => (2 * j)%nat) (seq 0 (Z.to_nat ((stop + 1) / 2))).

Definition item {A} (l : list A) (i : nat) : M A :=
  match nth_error l i with
  | Some a => ret a
  | None => raise IndexError
  end.

(** [v3_pool, swap_info, pool_state = <list>]: a list of another length than
    three is a [ValueError].  A three-element list would bind the names to
    three (pool, state) pairs; the V3 drivers return one-element lists
    (lemmas [v3_swap_exact_in_one] and [v3_swap_exact_out_one]) and that case,
    which is never reached, is closed with [TypeError]. *)
Definition unpack_three (result : list entry)
    : M (V3LiquidityPool * v3_swap_info * v3_state) :=
  match result with
  | [_; _; _] => raise TypeError
  | _ :: _ :: _ :: _ :: _ => raise (ValueError TooManyValuesToUnpack)
  | _ => raise (ValueError NotEnoughValuesToUnpack)
  end.

(** A fresh dictionary [{"params": t}]. *)
Definition params_only (t : list pyval) : params_dict :=
  {| path := []; amountIn := 0; amountOut := 0; params := Some t; data := [] |}.

(** [for token_pos in range(0, len(decoded) - 2, 2)] of [exactInput];
    [swap_info] is unbound before the first iteration. *)
Fixpoint exact_input_loop (positions : list nat) (decoded : list pyval)
    (names : path_names) (silent : bool) (swap_info : option v3_swap_info)
    (future_state : list entry) : M (list entry) :=
  match positions with
  | [] => ret future_state
  | token_pos :: rest =>
      tokenIn <- item decoded token_pos ;;
      fee <- item decoded (token_pos + 1) ;;
      tokenOut <- item decoded (token_pos + 2) ;;
      amount <-
        (if Nat.eqb token_pos 0 then read_var (p_amount names)
         else (info <- read_var swap_info ;;
               ret (VInt (Z.min (amount0_delta info) (amount1_delta info))))) ;;
      result <- v3_swap_exact_in (params_only [tokenIn; tokenOut; fee; amount]) silent ;;
      '(v3_pool, info, pool_state) <- unpack_three result ;;
      exact_input_loop rest decoded names silent (Some info)
        (future_state ++ [V3Entry v3_pool pool_state])
  end.

(** The same loop of [exactOutput]: the first address is [tokenOut]. *)
Fixpoint exact_output_loop (positions : list nat) (decoded : list pyval)
    (names : path_names) (silent : bool) (swap_info : option v3_swap_info)
    (future_state : list entry) : M (list entry) :=
  match positions with
  | [] => ret future_state
  | token_pos :: rest =>
      tokenOut <- item decoded token_pos ;;
      fee <- item decoded (token_pos + 1) ;;
      tokenIn <- item decoded (token_pos + 2) ;;
      amount <-
        (if Nat.eqb token_pos 0 then read_var (p_amount names)
         else (info <- read_var swap_info ;;
               ret (VInt (Z.max (amount0_delta info) (amount1_delta info))))) ;;
      result <- v3_swap_exact_out (params_only [tokenIn; tokenOut; fee; amount]) silent ;;
      '(v3_pool, info, pool_state) <- unpack_three result ;;
      exact_output_loop rest decoded names silent (Some info)
        (future_state ++ [V3Entry v3_pool pool_state])
  end.

Definition exact_input (fuel : nat) (func_params : params_dict) (silent : bool)
    (future_state : list entry) : M (list entry) :=
  let names := unpack_path_params (params func_params) in
  encoded <- read_var (p_path names) ;;
  decoded <- decode_path_value fuel encoded ;;
  _ <- (if negb silent then print_path_params names else ret tt) ;;
  exact_input_loop (range_step2 (Z.of_nat (List.length decoded) - 2)) decoded
    names silent None future_state.

Definition exact_output (fuel : nat) (func_params : params_dict) (silent : bool)
    (future_state : list entry) : M (list entry) :=
  let names := unpack_path_params (params func_params) in
  encoded <- read_var (p_path names) ;;
  decoded <- decode_path_value fuel encoded ;;
  _ <- (if negb silent then print_path_params names else ret tt) ;;
  exact_output_loop (range_step2 (Z.of_nat (List.length decoded) - 2)) decoded
    names silent None future_state.

(** ** The dispatch of [simulate] and [simulate_multicall] *)

(** [name in (a, b, ...)] on a tuple of strings. *)
Definition in_tuple (name : string) (names : list string) : bool :=
  existsb (String.eqb name) names.

(** [name in ("...")]: the parentheses hold one string and no tuple, so this
    is the substring test of Python. *)
Fixpoint in_string (name text : string) : bool :=
  prefix name text
  || match text with
     | EmptyString => false
     | String _ rest => in_string name rest
     end.

(** The body of the loop of [simulate_multicall], over a function [simulate_]
    for the recursive call.  [payload_func] and [payload_args] keep their
    values from one payload to the next; a decoding that raises binds
    nothing. *)
Fixpoint multicall_loop
    (simulate_ : option string -> option params_dict -> bool -> M (list entry))
    (payloads : list payload) (silent : bool)
    (payload_func : option string) (payload_args : option params_dict)
    (future_state : list entry) : M (list entry) :=
  match payloads with
  | [] => ret future_state
  | payload :: rest =>
      (* decode with Router ABI *)
      '(payload_func, payload_args) <-
        try_except
          ('(f, a) <- lift (decode_router C payload) ;; ret (Some f, Some a))
          (fun _ => ret (payload_func, payload_args)) ;;
      (* decode with Router2 ABI *)
      '(payload_func, payload_args) <-
        try_except
          ('(f, a) <- lift (decode_router2 C payload) ;; ret (Some f, Some a))
          (fun _ => ret (payload_func, payload_args)) ;;
      entries <-
        try_except
          (fn_name <- read_var payload_func ;;
           args <- read_var payload_args ;;
           simulate_ (Some fn_name) (Some args) silent)
          (fun e => raise (TransactionError (MulticallNotDecoded e))) ;;
      multicall_loop simulate_ rest silent payload_func payload_args
        (future_state ++ entries)
  end.

Definition liquidity_functions : list string :=
  [ "addLiquidity"; "addLiquidityETH"; "removeLiquidity"; "removeLiquidityETH";
    "removeLiquidityETHWithPermit";
    "removeLiquidityETHSupportingFeeOnTransferTokens";
    "removeLiquidityETHWithPermitSupportingFeeOnTransferTokens";
    "removeLiquidityWithPermit";
    "swapExactTokensForTokensSupportingFeeOnTransferTokens";
    "swapExactETHForTokensSupportingFeeOnTransferTokens";
    "swapExactTokensForETHSupportingFeeOnTransferTokens" ].

(** The chain of [if]/[elif] of [simulate], with [future_state = []] before
    it.  [multicall_] stands for [self.simulate_multicall]. *)
Definition dispatch (fuel : nat) (multicall_ : bool -> M (list entry))
    (func_name : string) (func_params : params_dict) (silent : bool)
    : M (list entry) :=
  let future_state : list entry := [] in
  if in_tuple func_name
       [ "swapExactTokensForETH";
         "swapExactTokensForETHSupportingFeeOnTransferTokens" ] then
    r <- v2_swap_exact_in func_params false silent ;; ret (future_state ++ r)
  else if in_tuple func_name
       [ "swapExactETHForTokens";
         "swapExactETHForTokensSupportingFeeOnTransferTokens" ] then
    r <- v2_swap_exact_in func_params true silent ;; ret (future_state ++ r)
  else if in_tuple func_name
       [ "swapExactTokensForTokens";
         "swapExactTokensForTokensSupportingFeeOnTransferTokens" ] then
    r <- v2_swap_exact_in func_params false silent ;; ret (future_state ++ r)
  else if in_string func_name "swapTokensForExactETH" then
    r <- v2_swap_exact_out func_params false silent ;; ret (future_state ++ r)
  else if in_string func_name "swapTokensForExactTokens" then
    r <- v2_swap_exact_out func_params false silent ;; ret (future_state ++ r)
  else if in_string func_name "swapETHForExactTokens" then
    r <- v2_swap_exact_out func_params true silent ;; ret (future_state ++ r)
  else if String.eqb func_name "multicall" then
    multicall_ silent
  else if String.eqb func_name "exactInputSingle" then
    r <- v3_swap_exact_in func_params silent ;; ret (future_state ++ r)
  else if String.eqb func_name "exactInput" then
    exact_input fuel func_params silent future_state
  else if String.eqb func_name "exactOutputSingle" then
    r <- v3_swap_exact_out func_params silent ;; ret (future_state ++ r)
  else if String.eqb func_name "exactOutput" then
    exact_output fuel func_params silent future_state
  else if in_tuple func_name liquidity_functions then
    ret future_state
  else if in_tuple func_name
       [ "refundETH"; "selfPermit"; "selfPermitAllowed"; "unwrapWETH9" ] then
    ret future_state
  else
    ret future_state.

(** [except (LiquidityPoolError, ValueError) as e] around the dispatch. *)
Definition on_bad_input {A} (e : exn) : M A :=
  match e with
  | LiquidityPoolError | ValueError _ => raise (TransactionError (NotCalculated e))
  | _ => raise e
  end.

(** [simulate].  [recursion_limit] bounds the depth of the calls between
    [simulate] and [simulate_multicall], as the interpreter does: a call
    beyond it raises [RecursionError].  [fuel] is the bound for the path
    decoding loop. *)
Fixpoint simulate (recursion_limit fuel : nat) (func_name_ : option string)
    (func_params_ : option params_dict) (silent : bool) : M (list entry) :=
  match recursion_limit with
  | O => raise RecursionError
  | S depth =>
      let func_name_ :=
        match func_name_ with Some n => n | None => func_name self end in
      let func_params_ :=
        match func_params_ with Some p => p | None => func_params self end in
      try_except
        (dispatch fuel
           (fun silent =>
              multicall_loop (simulate depth fuel) (data (func_params self))
                silent None None [])
           func_name_ func_params_ silent)
        on_bad_input
  end.

Definition simulate_multicall (recursion_limit fuel : nat) (silent : bool)
    : M (list entry) :=
  multicall_loop (simulate recursion_limit fuel) (data (func_params self))
    silent None None [].

End Drivers.

(** ** The router registry, [__init__] and [add_router] *)

(** A value of the dictionary [_routers]: ["name"], ["uniswap_version"] and
    ["factory_address"], itself a dictionary from a version (2 or 3) to the
    address of a factory. *)
Record router_info := {
  router_name : string;
  uniswap_version : Z;
  factory_address : list (Z * address)
}.

(** A dictionary as the list of its items in insertion order; every
    insertion the source makes is of a key it has tested to be absent. *)
Fixpoint lookup {K A} (eqb : K -> K -> bool) (k : K) (d : list (K * A)) : option A :=
  match d with
  | [] => None
  | (k', v) :: rest => if eqb k k' then Some v else lookup eqb k rest
  end.

Definition registry := list (address * router_info).

(** The known router contracts, pre-populated with mainnet addresses. *)
Definition _routers : registry :=
  [ ("0xd9e1cE17f2641f24aE83637ab66a2cca9C378B9F",
     {| router_name := "Sushiswap: Router"; uniswap_version := 2;
        factory_address := [(2, "0xC0AEe478e3658e2610c5F7A4A2E1777cE9e4f2Ac")] |});
    ("0xf164fC0Ec4E93095b804a4795bBe1e041497b92a",
     {| router_name := "UniswapV2: Router"; uniswap_version := 2;
        factory_address := [(2, "0x5C69bEe701ef814a2B6a3EDD4B1652CB9cc5aA6f")] |});
    ("0x7a250d5630B4cF539739dF2C5dAcb4c659F2488D",
     {| router_name := "UniswapV2: Router 2"; uniswap_version := 2;
        factory_address := [(2, "0x5C69bEe701ef814a2B6a3EDD4B1652CB9cc5aA6f")] |});
    ("0xE592427A0AEce92De3Edee1F18E0157C05861564",
     {| router_name := "UniswapV3: Router"; uniswap_version := 3;
        factory_address := [(3, "0x1F98431c8aD98523631AE4a59f267346ea31F984")] |});
    ("0x68b3465833fb72A70ecDF485E0e4C7bD8665Fc45",
     {| router_name := "UniswapV3: Router 2"; uniswap_version := 3;
        factory_address := [(2, "0x5C69bEe701ef814a2B6a3EDD4B1652CB9cc5aA6f");
                            (3, "0x1F98431c8aD98523631AE4a59f267346ea31F984")] |}) ].

(** Code of other modules that the constructor and [add_router] call: the
    constructors of the two pool managers, which give an object with
    [get_pool], and [web3.Web3.toChecksumAddress]. *)
Record factories := {
  UniswapV2LiquidityPoolManager : address -> outcome V2Manager;
  UniswapV3LiquidityPoolManager : address -> outcome V3Manager;
  toChecksumAddress : string -> outcome address
}.

(** [try: self.manager = Manager(factory_address=...["factory_address"][version])]
    with [except: pass]: a missing version and an exception of the
    constructor both leave the attribute unset. *)
Definition try_manager {A} (new : address -> outcome A) (version : Z) (r : router_info)
    : outcome (option A) :=
  match lookup Z.eqb version (factory_address r) with
  | None => Ok None
  | Some factory =>
      match new factory with
      | Ok manager => Ok (Some manager)
      | Raise _ => Ok None
      | Diverge => Diverge
      end
  end.

(** [UniswapTransaction.__init__] up to the assignment of [self.func_params]:
    the attributes the methods read; the [ValueError] is "Router address ...
    unknown!".  The two attributes set after it are in
    [new_UniswapTransaction]. *)
Definition __init__ (F : factories) (routers : registry)
    (tx_hash : string) (tx_nonce tx_value : Z) (func_name_ : string)
    (func_params_ : params_dict) (router_address : string)
    : outcome UniswapTransaction :=
  match lookup String.eqb router_address routers with
  | None => Raise (ValueError OtherValueError)
  | Some r =>
      match try_manager (UniswapV2LiquidityPoolManager F) 2 r with
      | Ok v2 =>
          match try_manager (UniswapV3LiquidityPoolManager F) 3 r with
          | Ok v3 =>
              Ok {| hash := tx_hash; nonce := tx_nonce; value := tx_value;
                    func_name := func_name_; func_params := func_params_;
                    v2_pool_manager := v2; v3_pool_manager := v3 |}
          | Raise e => Raise e
          | Diverge => Diverge
          end
      | Raise e => Raise e
      | Diverge => Diverge
      end
  end.

(** The whole constructor.  After [__init__] above come
    [self.func_deadline = func_params.get("deadline")] and
    [self.func_previous_block_hash], which is [hash.hex()] when
    [hash := self.func_params.get("previousBlockhash")] is true and [None]
    otherwise.  [deadline] and [previousBlockhash] are what [get] gives for
    these two keys of [func_params], [VNone] for an absent key; only a
    [bytes] value has the method [hex]. *)
Record constructed := {
  transaction_ : UniswapTransaction;
  func_deadline : pyval;
  func_previous_block_hash : option string
}.

Definition previous_block_hash (previousBlockhash : pyval) : outcome (option string) :=
  if truthy previousBlockhash then
    match previousBlockhash with
    | VBytes b => Ok (Some (hex b))
    | _ => Raise AttributeError
    end
  else Ok None.

Definition new_UniswapTransaction (F : factories) (routers : registry)
    (tx_hash : string) (tx_nonce tx_value : Z) (func_name_ : string)
    (func_params_ : params_dict) (deadline previousBlockhash : pyval)
    (router_address : string) : outcome constructed :=
  match __init__ F routers tx_hash tx_nonce tx_value func_name_ func_params_
          router_address with
  | Ok tx =>
      match previous_block_hash previousBlockhash with
      | Ok h => Ok {| transaction_ := tx; func_deadline := deadline;
                      func_previous_block_hash := h |}
      | Raise e => Raise e
      | Diverge => Diverge
      end
  | Raise e => Raise e
  | Diverge => Diverge
  end.

(** [UniswapTransaction.add_router], on the dictionary it updates; the
    [ValueError] is "Router address already known!". *)
Definition add_router (F : factories) (routers : registry)
    (router_address : string) (router_dict : router_info) : outcome registry :=
  match toChecksumAddress F router_address with
  | Ok router_address =>
      match lookup String.eqb router_address routers with
      | Some _ => Raise (ValueError OtherValueError)
      | None => Ok (routers ++ [(router_address, router_dict)])
      end
  | Raise e => Raise e
  | Diverge => Diverge
  end.

(** * Definitions for the statements *)

(** The big-endian value of a byte string. *)
Definition big_endian (b : list byte) : Z :=
  fold_left (fun acc x => acc * 256 + Z.of_N (Byte.to_N x)) b 0.

(** What the decoder is to return for a path of [k] hops: [k + 1] addresses
    with a fee between each two. *)
Fixpoint segments (k : nat) (path : list byte) : list pyval :=
  VStr (hex (firstn 20 path))
  :: match k with
     | O => []
     | S k' => VInt (big_endian (firstn 3 (skipn 20 path)))
               :: segments k' (skipn 23 path)
     end.

(** The cursor visits the positions [23j] (before an address) and [23j + 20]
    (before a fee) and no other. *)
Definition on_cycle (pos len : nat) : Prop :=
  (len = 20%nat /\ exists j, pos = (23 * j)%nat)
  \/ (len = 3%nat /\ exists j, pos = (23 * j + 20)%nat).

(** The quantity a V2 exact-input hop derives: the decrease of token0's
    reserve when it went down, of token1's otherwise. *)
Definition derived_output (current_state future_state : v2_state) (out : Z) : Prop :=
  (reserves_token0 future_state < reserves_token0 current_state
   /\ out = reserves_token0 current_state - reserves_token0 future_state)
  \/ (reserves_token0 current_state <= reserves_token0 future_state
      /\ reserves_token1 future_state < reserves_token1 current_state
      /\ out = reserves_token1 current_state - reserves_token1 future_state).

(** Quantities threaded forward through a list of pools: the simulator is
    asked with quantity [q] at the first pool, answers with the future state
    of the entry, and the output derived from that state is the quantity at
    the next pool.  One entry and one simulator call per pool, in the order
    of the pools. *)
Inductive threads_forward (C : collaborators)
  : Z -> list LiquidityPool -> list entry -> list sim_call -> Prop :=
| threads_done q : threads_forward C q [] [] []
| threads_hop q pool pools token_in future_state out entries calls :
    v2_simulate_swap_in C pool token_in q = Ok future_state ->
    derived_output (state pool) future_state out ->
    threads_forward C out pools entries calls ->
    threads_forward C q (pool :: pools)
      (V2Entry pool future_state :: entries)
      (V2SwapIn pool token_in q :: calls).

(** The answers of the simulator along a list of pools: asked at the first
    pool with [q] of [token_in], it answers with a state from which an output
    is derived, and so on at the next pool with that output and the other
    token of the pool. *)
Inductive hops_answered (C : collaborators)
  : Z -> Erc20Token -> list LiquidityPool -> Prop :=
| answered_done q token_in : hops_answered C q token_in []
| answered_hop q token_in pool pools future_state out :
    v2_simulate_swap_in C pool token_in q = Ok future_state ->
    derived_output (state pool) future_state out ->
    hops_answered C out
      (if token_is token_in (token1 pool) then token0 pool else token1 pool)
      pools ->
    hops_answered C q token_in (pool :: pools).

(** The pools the V2 manager gives for the consecutive pairs of a path. *)
Definition pools_of_path (self : UniswapTransaction) (silent : bool)
    (path_ : list address) (pools : list LiquidityPool) : Prop :=
  Forall2
    (fun pair pool =>
       exists get_pool,
         v2_pool_manager self = Some get_pool
         /\ get_pool (fst pair) (snd pair) silent = Ok pool)
    (pairwise path_) pools.

(** The delta that is larger in magnitude, in the words of the
    specification of the V3 exact-output driver. *)
Definition larger_in_magnitude (d0 d1 : Z) : Z :=
  if Z.abs d0 <? Z.abs d1 then d1 else d0.

(** The decoding of a payload that the loop of [simulate_multicall] keeps:
    that of the Router2 ABI when it succeeds, else that of the Router ABI. *)
Definition last_decoding (C : collaborators) (p : payload)
    : option (string * params_dict) :=
  match decode_router2 C p with
  | Ok x => Some x
  | _ => match decode_router C p with
         | Ok x => Some x
         | _ => None
         end
  end.

(** The transaction with another attached value. *)
Definition with_value (self : UniswapTransaction) (v : Z) : UniswapTransaction :=
  {| hash := hash self; nonce := nonce self; value := v;
     func_name := func_name self; func_params := func_params self;
     v2_pool_manager := v2_pool_manager self;
     v3_pool_manager := v3_pool_manager self |}.

(** What the decoder returns for a path of [k] addresses, each with a fee
    behind it. *)
Fixpoint fee_terminated (k : nat) (path : list byte) : list pyval :=
  match k with
  | O => []
  | S k' => VStr (hex (firstn 20 path))
            :: VInt (big_endian (firstn 3 (skipn 20 path)))
            :: fee_terminated k' (skipn 23 path)
  end.

(** The packed encoding of a path, the construction the decoder inverts:
    the twenty bytes of a token, then for every hop the three bytes of its
    fee, most significant first, and the twenty bytes of the next token. *)
Definition byte_of_Z (z : Z) : byte :=
  match Byte.of_N (Z.to_N z) with
  | Some b => b
  | None => x00
  end.

Definition fee_bytes (fee : Z) : list byte :=
  [byte_of_Z (fee / 65536); byte_of_Z (fee / 256 mod 256); byte_of_Z (fee mod 256)].

Fixpoint encode_path (token : list byte) (hops : list (Z * list byte)) : list byte :=
  token ++ match hops with
           | [] => []
           | (fee, next) :: rest => fee_bytes fee ++ encode_path next rest
           end.

Fixpoint decoded_path (token : list byte) (hops : list (Z * list byte)) : list pyval :=
  VStr (hex token)
  :: match hops with
     | [] => []
     | (fee, next) :: rest => VInt fee :: decoded_path next rest
     end.

Definition well_formed_hop (hop : Z * list byte) : Prop :=
  0 <= fst hop < 16777216 /\ List.length (snd hop) = 20%nat.

(** The shape of a decoded element: an address is forty lowercase
    hexadecimal digits, a fee lies below [2^24]. *)
Fixpoint lower_hex (s : string) : bool :=
  match s with
  | EmptyString => true
  | String c rest =>
      let n := N_of_ascii c in
      (((48 <=? n) && (n <=? 57)) || ((97 <=? n) && (n <=? 102)))%N
      && lower_hex rest
  end.

Definition decoded_shape (v : pyval) : Prop :=
  match v with
  | VStr s => String.length s = 40%nat /\ lower_hex s = true
  | VInt fee => 0 <= fee < 16777216
  | _ => False
  end.

(** The successful hops of the V2 exact-output driver over a list of pools in
    processing order: at every pool the simulator is asked for the output
    [q] and answers with a state in which a reserve went up.  One entry and
    one call per pool. *)
Inductive answers_out (C : collaborators) (q : Z)
  : list LiquidityPool -> list entry -> list sim_call -> Prop :=
| answers_out_done : answers_out C q [] [] []
| answers_out_hop pool pools token_out future_state entries calls :
    v2_simulate_swap_out C pool token_out q = Ok future_state ->
    (reserves_token0 (state pool) < reserves_token0 future_state
     \/ reserves_token1 (state pool) < reserves_token1 future_state) ->
    answers_out C q pools entries calls ->
    answers_out C q (pool :: pools)
      (V2Entry pool future_state :: entries)
      (V2SwapOut pool token_out q :: calls).

(** The pool of an entry of a V2 swap. *)
Definition v2_pool_of (e : entry) : option LiquidityPool :=
  match e with
  | V2Entry pool _ => Some pool
  | V3Entry _ _ => None
  end.

(** The function names a driver branch of [simulate] tests with [==] or with
    membership in a tuple, and the test of the whole chain: a match with one
    of these, or a name inside one of the three strings tested with [in]. *)
Definition exact_in_names : list string :=
  [ "swapExactTokensForETH";
    "swapExactTokensForETHSupportingFeeOnTransferTokens";
    "swapExactETHForTokens";
    "swapExactETHForTokensSupportingFeeOnTransferTokens";
    "swapExactTokensForTokens";
    "swapExactTokensForTokensSupportingFeeOnTransferTokens" ].

Definition v3_names_ : list string :=
  [ "multicall"; "exactInputSingle"; "exactInput"; "exactOutputSingle";
    "exactOutput" ].

Definition taken_by_driver (name : string) : bool :=
  in_tuple name exact_in_names
  || in_string name "swapTokensForExactETH"
  || in_string name "swapTokensForExactTokens"
  || in_string name "swapETHForExactTokens"
  || in_tuple name v3_names_.

(** All strings that lie inside a string. *)
Fixpoint prefixes (s : string) : list string :=
  EmptyString
  :: match s with
     | EmptyString => []
     | String c rest => map (String c) (prefixes rest)
     end.

Fixpoint substrings (s : string) : list string :=
  prefixes s
  ++ match s with
     | EmptyString => []
     | String _ rest => substrings rest
     end.

(** The fields the V3 drivers use, read from the positional tuple by its
    arity: eight fields (Router ABI, with a deadline), seven (Router2 ABI) or
    four (built by the encoded-path branches).  For exact-input:
    [(tokenIn, tokenOut, fee, amountIn)]; for exact-output:
    [(tokenIn, tokenOut, fee, amountOut, amountInMaximum, sqrtPriceLimitX96)],
    the last two [None] in the four-field shape. *)
Definition exact_in_fields (t : option (list pyval))
    : option (pyval * pyval * pyval * pyval) :=
  match t with
  | Some [a; b; f; _; _; q; _; _] => Some (a, b, f, q)
  | Some [a; b; f; _; q; _; _] => Some (a, b, f, q)
  | Some [a; b; f; q] => Some (a, b, f, q)
  | _ => None
  end.

Definition exact_out_fields (t : option (list pyval))
    : option (pyval * pyval * pyval * pyval * pyval * pyval) :=
  match t with
  | Some [a; b; f; _; _; q; m; l] => Some (a, b, f, q, m, l)
  | Some [a; b; f; _; q; m; l] => Some (a, b, f, q, m, l)
  | Some [a; b; f; q] => Some (a, b, f, q, VNone, VNone)
  | _ => None
  end.

(** A tuple of none of the three arities, or no tuple at all. *)
Definition no_shape (t : option (list pyval)) : Prop :=
  forall fields, t = Some fields ->
    List.length fields <> 4%nat /\ List.length fields <> 7%nat
    /\ List.length fields <> 8%nat.

(** The collaborators that are handed the flag [silent] give the same answer
    for both of its values. *)
Definition silent_is_ignored (C : collaborators) (self : UniswapTransaction) : Prop :=
  (forall v, get_erc20token C v true = get_erc20token C v false)
  /\ (forall get_pool, v2_pool_manager self = Some get_pool ->
        forall a b, get_pool a b true = get_pool a b false)
  /\ (forall get_pool, v3_pool_manager self = Some get_pool ->
        forall a b f, get_pool a b f true = get_pool a b f false).

(** ** A small world for the examples

    Three tokens, the V2 pools (A, B) and (B, C) with constant-product
    pricing without fee, a V3 manager that knows a pool for every pair of
    addresses, and two ABI decoders that read the first byte of a payload. *)
Module World.

Definition tokenA := {| token_address := "A" |}.
Definition tokenB := {| token_address := "B" |}.
Definition tokenC := {| token_address := "C" |}.

Definition poolAB : LiquidityPool :=
  {| pool_address := "AB"; token0 := tokenA; token1 := tokenB;
     state := {| reserves_token0 := 1000; reserves_token1 := 2000 |} |}.

Definition poolBC : LiquidityPool :=
  {| pool_address := "BC"; token0 := tokenB; token1 := tokenC;
     state := {| reserves_token0 := 3000; reserves_token1 := 1500 |} |}.

Definition get_pool_v2 : V2Manager := fun a b _ =>
  if (String.eqb a "A" && String.eqb b "B") || (String.eqb a "B" && String.eqb b "A")
  then Ok poolAB
  else if (String.eqb a "B" && String.eqb b "C")
          || (String.eqb a "C" && String.eqb b "B")
  then Ok poolBC
  else Raise LiquidityPoolError.

Definition get_token (v : pyval) (_ : bool) : outcome Erc20Token :=
  match v with
  | VStr a => Ok {| token_address := a |}
  | _ => Raise TypeError
  end.

(** Constant product: the pool receives [q] of [token_in] and pays out
    [q * r_out / (r_in + q)]. *)
Definition swap_in (pool : LiquidityPool) (token_in : Erc20Token) (q : Z)
    : outcome v2_state :=
  let r0 := reserves_token0 (state pool) in
  let r1 := reserves_token1 (state pool) in
  if token_is token_in (token0 pool) then
    Ok {| reserves_token0 := r0 + q; reserves_token1 := r1 - q * r1 / (r0 + q) |}
  else
    Ok {| reserves_token0 := r0 - q * r0 / (r1 + q); reserves_token1 := r1 + q |}.

(** The pool pays out [q] of [token_out] and receives
    [r_in * q / (r_out - q) + 1]; more than the pool holds cannot be paid. *)
Definition swap_out (pool : LiquidityPool) (token_out : Erc20Token) (q : Z)
    : outcome v2_state :=
  let r0 := reserves_token0 (state pool) in
  let r1 := reserves_token1 (state pool) in
  if token_is token_out (token1 pool) then
    if q <? r1
    then Ok {| reserves_token0 := r0 + (r0 * q / (r1 - q) + 1);
               reserves_token1 := r1 - q |}
    else Raise LiquidityPoolError
  else
    if q <? r0
    then Ok {| reserves_token0 := r0 - q;
               reserves_token1 := r1 + (r1 * q / (r0 - q) + 1) |}
    else Raise LiquidityPoolError.

Definition get_pool_v3 : V3Manager := fun tokenIn tokenOut fee _ =>
  match tokenIn, tokenOut, fee with
  | VStr a, VStr b, VInt f =>
      Ok {| v3_address := String.append a b;
            v3_token0 := {| token_address := a |};
            v3_token1 := {| token_address := b |};
            v3_fee := f |}
  | _, _, _ => Raise ManagerError
  end.

Definition state_v3 : v3_state :=
  {| liquidity := 1000000; sqrt_price_x96 := 79228162514264337593543950336;
     tick := 0 |}.

(** The V3 pools of this world trade at a fixed rate: an input of [q] pays
    out [q / 2]; an output of [q] costs [q + q / 2]. *)
Definition swap_in_v3 (pool : V3LiquidityPool) (token_in : Erc20Token)
    (quantity : pyval) : outcome (v3_swap_info * v3_state) :=
  match quantity with
  | VInt q => Ok ({| amount0_delta := q; amount1_delta := - (q / 2) |}, state_v3)
  | _ => Raise TypeError
  end.

Definition swap_out_v3 (pool : V3LiquidityPool) (token_out : Erc20Token)
    (quantity limit : pyval) : outcome (v3_swap_info * v3_state) :=
  match quantity with
  | VInt q => Ok ({| amount0_delta := q + q / 2; amount1_delta := - q |}, state_v3)
  | _ => Raise TypeError
  end.

Definition no_params : params_dict :=
  {| path := []; amountIn := 0; amountOut := 0; params := None; data := [] |}.

(** A payload that starts with the byte 01 is [exactInputSingle] under the
    Router ABI (eight fields); one that starts with 02 is [exactOutputSingle]
    under the Router2 ABI (seven fields); one that starts with 03 is
    [refundETH] under both; any other payload is decoded by neither. *)
Definition router (p : payload) : outcome (string * params_dict) :=
  match p with
  | x01 :: _ =>
      Ok ("exactInputSingle",
          params_only [VStr "A"; VStr "B"; VInt 3000; VStr "me"; VInt 1700000000;
                       VInt 400; VInt 1; VInt 0])
  | x03 :: _ => Ok ("refundETH", no_params)
  | _ => Raise (ValueError OtherValueError)
  end.

Definition router2 (p : payload) : outcome (string * params_dict) :=
  match p with
  | x02 :: _ =>
      Ok ("exactOutputSingle",
          params_only [VStr "B"; VStr "C"; VInt 500; VStr "me"; VInt 100;
                       VInt 0; VInt 0])
  | x03 :: _ => Ok ("refundETH", no_params)
  | _ => Raise (ValueError OtherValueError)
  end.

Definition world : collaborators :=
  {| get_erc20token := get_token;
     v2_simulate_swap_in := swap_in;
     v2_simulate_swap_out := swap_out;
     v3_simulate_swap_in := swap_in_v3;
     v3_simulate_swap_out := swap_out_v3;
     decode_router := router;
     decode_router2 := router2 |}.

(** The same world with a V2 exact-input simulator that answers every call
    with one fixed state. *)
Definition world_answering (future_state : v2_state) : collaborators :=
  {| get_erc20token := get_token;
     v2_simulate_swap_in := fun _ _ _ => Ok future_state;
     v2_simulate_swap_out := swap_out;
     v3_simulate_swap_in := swap_in_v3;
     v3_simulate_swap_out := swap_out_v3;
     decode_router := router;
     decode_router2 := router2 |}.

(** A transaction sent to a router with factories of both versions. *)
Definition transaction (name : string) (p : params_dict) (v : Z)
    : UniswapTransaction :=
  {| hash := "0x01"; nonce := 7; value := v; func_name := name;
     func_params := p;
     v2_pool_manager := Some get_pool_v2;
     v3_pool_manager := Some get_pool_v3 |}.

(** The parameters of a V2 swap along A, B, C. *)
Definition swap_ABC (amount_in amount_out : Z) : params_dict :=
  {| path := ["A"; "B"; "C"]; amountIn := amount_in; amountOut := amount_out;
     params := None; data := [] |}.

(** Twenty-byte addresses and encoded paths. *)
Definition addr (b : byte) : list byte := repeat b 20.
Definition fee3000 : list byte := [x00; x0b; xb8].
Definition fee500 : list byte := [x00; x01; xf4].

Definition path_one : list byte := addr xaa.
Definition path_two : list byte := addr xaa ++ fee3000 ++ addr xbb.
Definition path_three : list byte :=
  addr xaa ++ fee3000 ++ addr xbb ++ fee500 ++ addr xcc.

(** Parameter tuples of the V3 router functions. *)
Definition exactOutputSingle_AB (amountOut_ amountInMaximum_ : Z) : params_dict :=
  params_only [VStr "A"; VStr "B"; VInt 3000; VStr "me"; VInt 1700000000;
               VInt amountOut_; VInt amountInMaximum_; VInt 0].

Definition pool_v3 (a b : string) (f : Z) : V3LiquidityPool :=
  {| v3_address := String.append a b; v3_token0 := {| token_address := a |};
     v3_token1 := {| token_address := b |}; v3_fee := f |}.

Definition entry_AB : entry := V3Entry (pool_v3 "A" "B" 3000) state_v3.

Definition hex_a := "aaaaaaaaaaaaaaaaaaaaaaaaaaaaaaaaaaaaaaaa".
Definition hex_b := "bbbbbbbbbbbbbbbbbbbbbbbbbbbbbbbbbbbbbbbb".

(** The five fields of [exactInput] and [exactOutput] under the Router ABI
    and the four under the Router2 ABI. *)
Definition encoded_router (encoded : list byte) (amount limit : Z) : params_dict :=
  params_only [VBytes encoded; VStr "me"; VInt 1700000000; VInt amount; VInt limit].

Definition encoded_router2 (encoded : list byte) (amount limit : Z) : params_dict :=
  params_only [VBytes encoded; VStr "me"; VInt amount; VInt limit].

(** The parameters of a multicall. *)
Definition multicall (payloads : list payload) : params_dict :=
  {| path := []; amountIn := 0; amountOut := 0; params := None; data := payloads |}.

(** A world whose V3 pools pay out five times what they take in: for an
    output of [q] the simulator answers with the deltas [q / 5] and [- q]. *)
Definition swap_out_v3_generous (pool : V3LiquidityPool) (token_out : Erc20Token)
    (quantity limit : pyval) : outcome (v3_swap_info * v3_state) :=
  match quantity with
  | VInt q => Ok ({| amount0_delta := q / 5; amount1_delta := - q |}, state_v3)
  | _ => Raise TypeError
  end.

Definition world_generous : collaborators :=
  {| get_erc20token := get_token;
     v2_simulate_swap_in := swap_in;
     v2_simulate_swap_out := swap_out;
     v3_simulate_swap_in := swap_in_v3;
     v3_simulate_swap_out := swap_out_v3_generous;
     decode_router := router;
     decode_router2 := router2 |}.

(** Manager constructors that give the managers of this world for every
    factory, and a checksum function that knows one address in lowercase. *)
Definition checksum (a : string) : outcome address :=
  if String.eqb a "0xdef1c0ded9bec7f1a1670819833240f027b25eff"
  then Ok "0xDef1C0ded9bec7F1a1670819833240f027b25EfF"
  else Ok a.

Definition makers : factories :=
  {| UniswapV2LiquidityPoolManager := fun _ => Ok get_pool_v2;
     UniswapV3LiquidityPoolManager := fun _ => Ok get_pool_v3;
     toChecksumAddress := checksum |}.

Definition new_router : router_info :=
  {| router_name := "A router"; uniswap_version := 3;
     factory_address := [(3, "0x1F98431c8aD98523631AE4a59f267346ea31F984")] |}.

End World.

(** * Properties *)

(** ** The monad *)

Lemma bind_ok {A B} (m : M A) (k : A -> M B) log a log' :
  m log = (Ok a, log') -> bind m k log = k a log'.
Proof. intros H; unfold bind; now rewrite H. Qed.

Lemma bind_raise {A B} (m : M A) (k : A -> M B) log e log' :
  m log = (Raise e, log') -> bind m k log = (Raise e, log').
Proof. intros H; unfold bind; now rewrite H. Qed.

Lemma bind_inv_ok {A B} (m : M A) (k : A -> M B) log b log'' :
  bind m k log = (Ok b, log'') ->
  exists a log', m log = (Ok a, log') /\ k a log' = (Ok b, log'').
Proof.
  unfold bind; destruct (m log) as [[a | e |] log'] eqn:E; intros H;
    try discriminate.
  now exists a, log'.
Qed.

(** ** Path decoding *)

Lemma digit_value_hex_digit (n : N) :
  (n < 16)%N -> digit_value (hex_digit n) = Some (Z.of_N n).
Proof.
  intros H.
  assert (E : In n (map N.of_nat (seq 0 16))).
  { apply in_map_iff; exists (N.to_nat n); split; [lia |].
    apply in_seq; lia. }
  simpl in E; repeat (destruct E as [<- | E]; [reflexivity |]); destruct E.
Qed.

Lemma int16_from_hex (b : list byte) (acc : Z) :
  int16_from acc (hex b)
  = Some (fold_left (fun acc x => acc * 256 + Z.of_N (Byte.to_N x)) b acc).
Proof.
  revert acc; induction b as [| x b IH]; intros acc; [reflexivity |].
  cbn [hex int16_from fold_left].
  assert (Hx : (Byte.to_N x < 256)%N)
    by (pose proof (Byte.to_N_bounded x); lia).
  rewrite !digit_value_hex_digit.
  - rewrite IH; do 2 f_equal.
    rewrite N2Z.inj_div, N2Z.inj_mod; cbn.
    pose proof (Z.div_mod (Z.of_N (Byte.to_N x)) 16); lia.
  - apply N.mod_lt; discriminate.
  - apply N.Div0.div_lt_upper_bound; lia.
Qed.

Lemma int16_hex (b : list byte) :
  b <> [] -> int16 (hex b) = Ok (big_endian b).
Proof.
  intros H; destruct b as [| x b]; [contradiction |].
  unfold int16, big_endian.
  change (hex (x :: b)) with
    (String (hex_digit (Byte.to_N x / 16))
       (String (hex_digit (Byte.to_N x mod 16)) (hex b))) at 1.
  cbv iota; now rewrite int16_from_hex.
Qed.

Lemma slice_length (path : list byte) (pos n : nat) :
  (pos + n <= List.length path)%nat -> List.length (slice path pos n) = n.
Proof.
  intros H; unfold slice; rewrite length_firstn, length_skipn; lia.
Qed.

Lemma slice_fee_nonempty (path : list byte) (pos : nat) :
  (pos + 3 <= List.length path)%nat -> slice path pos 3 <> [].
Proof.
  intros H E; apply slice_length in H; rewrite E in H; discriminate.
Qed.

(** One turn of the loop, case by case. *)
Lemma decode_loop_end fuel path pos len acc :
  pos = List.length path -> decode_loop (S fuel) path pos len acc = Ok acc.
Proof. intros ->; cbn; now rewrite Nat.eqb_refl. Qed.

Lemma decode_loop_address fuel path pos acc :
  (pos + 20 <= List.length path)%nat ->
  decode_loop (S fuel) path pos 20 acc
  = decode_loop fuel path (pos + 20) 3 (acc ++ [VStr (hex (slice path pos 20))]).
Proof.
  intros H; cbn [decode_loop].
  destruct (Nat.eqb_spec pos (List.length path)); [lia |].
  destruct (Nat.leb_spec (pos + 20) (List.length path)); [| lia].
  reflexivity.
Qed.

Lemma decode_loop_fee fuel path pos acc :
  (pos + 3 <= List.length path)%nat ->
  decode_loop (S fuel) path pos 3 acc
  = decode_loop fuel path (pos + 3) 20
      (acc ++ [VInt (big_endian (slice path pos 3))]).
Proof.
  intros H; cbn [decode_loop].
  destruct (Nat.eqb_spec pos (List.length path)); [lia |].
  destruct (Nat.leb_spec (pos + 3) (List.length path)); [| lia].
  cbn; now rewrite int16_hex by now apply slice_fee_nonempty.
Qed.

Lemma decode_loop_short fuel path pos len acc :
  (List.length path < pos + len)%nat -> pos <> List.length path ->
  decode_loop (S fuel) path pos len acc
  = decode_loop fuel path (pos + len) (next_length len) acc.
Proof.
  intros H Hne; cbn [decode_loop].
  destruct (Nat.eqb_spec pos (List.length path)); [contradiction |].
  destruct (Nat.leb_spec (pos + len) (List.length path)); [lia |].
  now rewrite !andb_false_r.
Qed.

Lemma decode_loop_segments (k : nat) :
  forall fuel path pos acc,
    List.length path = (pos + 20 + 23 * k)%nat ->
    (2 * k + 2 <= fuel)%nat ->
    decode_loop fuel path pos 20 acc = Ok (acc ++ segments k (skipn pos path)).
Proof.
  induction k as [| k IH]; intros fuel path pos acc Hlen Hfuel.
  - destruct fuel as [| [| fuel]]; try lia.
    rewrite decode_loop_address by lia.
    rewrite decode_loop_end by lia.
    reflexivity.
  - destruct fuel as [| [| fuel]]; try lia.
    rewrite decode_loop_address by lia.
    rewrite decode_loop_fee by lia.
    replace (pos + 20 + 3)%nat with (pos + 23)%nat by lia.
    rewrite IH by lia.
    rewrite <- !app_assoc; cbn [app segments].
    unfold slice; rewrite !skipn_skipn.
    now rewrite (Nat.add_comm 20 pos), (Nat.add_comm 23 pos).
Qed.

(** A path of [20 + 23k] bytes is decoded, by a loop of [2k + 2] turns, into
    its [k + 1] addresses and [k] fees. *)
Theorem decode_path_segments (k fuel : nat) (path : list byte) :
  List.length path = (20 + 23 * k)%nat ->
  (2 * k + 2 <= fuel)%nat ->
  decode_path fuel path = Ok (segments k path).
Proof.
  intros Hlen Hfuel; unfold decode_path.
  now rewrite (decode_loop_segments k) by (cbn; lia).
Qed.

Lemma segments_length (k : nat) :
  forall path, List.length (segments k path) = (2 * k + 1)%nat.
Proof.
  induction k as [| k IH]; intros path; [reflexivity |].
  cbn [segments List.length]; rewrite IH; lia.
Qed.

Lemma on_cycle_next pos len :
  on_cycle pos len -> on_cycle (pos + len) (next_length len).
Proof.
  intros [[-> [j ->]] | [-> [j ->]]]; [right | left]; split; try reflexivity.
  - now exists j.
  - exists (S j); lia.
Qed.

Lemma decode_loop_diverges (path : list byte) :
  (forall k, List.length path <> (20 + 23 * k)%nat) ->
  (forall k, List.length path <> (23 * k)%nat) ->
  forall fuel pos len acc,
    on_cycle pos len -> decode_loop fuel path pos len acc = Diverge.
Proof.
  intros Hbad1 Hbad2; induction fuel as [| fuel IH]; intros pos len acc Hc;
    [reflexivity |].
  assert (Hne : pos <> List.length path).
  { destruct Hc as [[_ [j ->]] | [_ [j ->]]]; intros E; symmetry in E.
    - now apply (Hbad2 j).
    - apply (Hbad1 j); lia. }
  pose proof (on_cycle_next _ _ Hc) as Hn.
  destruct (Nat.leb_spec (pos + len) (List.length path)) as [Hle | Hgt].
  - destruct Hc as [[-> _] | [-> _]].
    + rewrite decode_loop_address by exact Hle; now apply IH.
    + rewrite decode_loop_fee by exact Hle; now apply IH.
  - rewrite decode_loop_short by assumption; now apply IH.
Qed.

(** On a path whose length is neither [20 + 23k] nor [23k] the loop never
    leaves: whatever the number of turns allowed, there is neither a result
    nor an exception. *)
Theorem decode_path_diverges (path : list byte) :
  (forall k, List.length path <> (20 + 23 * k)%nat) ->
  (forall k, List.length path <> (23 * k)%nat) ->
  forall fuel, decode_path fuel path = Diverge.
Proof.
  intros H1 H2 fuel; apply decode_loop_diverges; try assumption.
  left; split; [reflexivity | now exists 0%nat].
Qed.

Lemma decode_loop_never_raises (path : list byte) (e : exn) :
  forall fuel pos len acc, decode_loop fuel path pos len acc <> Raise e.
Proof.
  induction fuel as [| fuel IH]; intros pos len acc; [discriminate |].
  cbn [decode_loop].
  destruct (Nat.eqb_spec pos (List.length path)); [discriminate |].
  destruct (Nat.eqb_spec len 20) as [-> | _]; cbn [andb].
  - destruct (Nat.leb_spec (pos + 20) (List.length path)); apply IH.
  - destruct (Nat.eqb_spec len 3) as [-> | _]; cbn [andb]; [| apply IH].
    destruct (Nat.leb_spec (pos + 3) (List.length path)); [| apply IH].
    rewrite int16_hex by now apply slice_fee_nonempty.
    apply IH.
Qed.

(** The decoder raises nothing, on any input. *)
Theorem decode_path_never_raises (fuel : nat) (path : list byte) (e : exn) :
  decode_path fuel path <> Raise e.
Proof. apply decode_loop_never_raises. Qed.

(** ** The V2 exact-input driver *)


(** The hop at the head of the loop, once the simulator has answered with
    [future_state] to the quantity [q]. *)
Lemma hop_unfold (C : collaborators) pool rest i swap_in_quantity q token_in
    token_out token_out_quantity future_pool_states future_state log :
  (if Nat.eqb i 0 then swap_in_quantity = q else token_out_quantity = Some q) ->
  v2_simulate_swap_in C pool (if Nat.eqb i 0 then token_in else token_out) q
  = Ok future_state ->
  v2_exact_in_loop C (pool :: rest) i swap_in_quantity token_in token_out
    token_out_quantity future_pool_states log
  = bind (reserve_decrease (state pool) future_state)
      (fun out =>
         v2_exact_in_loop C rest (S i) swap_in_quantity
           (if Nat.eqb i 0 then token_in else token_out)
           (if token_is (if Nat.eqb i 0 then token_in else token_out) (token1 pool)
            then token0 pool else token1 pool)
           (Some out) (future_pool_states ++ [V2Entry pool future_state]))
      (log ++ [V2SwapIn pool (if Nat.eqb i 0 then token_in else token_out) q]).
Proof.
  intros quantity answer; cbn [v2_exact_in_loop].
  assert (Hread :
    (if Nat.eqb i 0 then ret swap_in_quantity else read_var token_out_quantity) log
    = (Ok q, log)).
  { destruct (Nat.eqb i 0); rewrite quantity; reflexivity. }
  rewrite (bind_ok _ _ _ _ _ Hread).
  unfold bind at 1, record_call.
  unfold bind at 1, lift; rewrite answer.
  reflexivity.
Qed.


Lemma v2_pool_objects_ok (self : UniswapTransaction) (silent : bool) :
  forall pairs pool_objects log pools log',
    v2_pool_objects self pairs silent pool_objects log = (Ok pools, log') ->
    log' = log
    /\ exists found,
         pools = pool_objects ++ found
         /\ Forall2
              (fun pair pool =>
                 exists get_pool,
                   v2_pool_manager self = Some get_pool
                   /\ get_pool (fst pair) (snd pair) silent = Ok pool)
              pairs found.
Proof.
  induction pairs as [| [a b] pairs IH]; intros acc log pools log' H.
  - inversion H; subst; split; [reflexivity |].
    exists []; rewrite app_nil_r; split; [reflexivity | constructor].
  - cbn [v2_pool_objects] in H.
    apply bind_inv_ok in H as (pool & log1 & Hpool & H1).
    apply IH in H1 as (-> & found & -> & Hall).
    unfold try_except, bind, read_attr, lift, ret, raise in Hpool.
    destruct (v2_pool_manager self) as [get_pool |] eqn:Hm;
      [| discriminate].
    destruct (get_pool a b silent) as [pool' | e |] eqn:Hg;
      [| destruct e; discriminate | discriminate].
    inversion Hpool; subst; split; [reflexivity |].
    exists (pool :: found); rewrite <- app_assoc; split; [reflexivity |].
    constructor; [| assumption].
    now exists get_pool.
Qed.


Lemma threads_forward_pools C q pools entries calls :
  threads_forward C q pools entries calls ->
  List.length entries = List.length pools
  /\ List.length calls = List.length pools.
Proof.
  induction 1; cbn; [split; reflexivity |].
  destruct IHthreads_forward; split; congruence.
Qed.


Lemma v2_pool_objects_found (self : UniswapTransaction) (silent : bool) :
  forall pairs found pool_objects log,
    Forall2
      (fun pair pool =>
         exists get_pool,
           v2_pool_manager self = Some get_pool
           /\ get_pool (fst pair) (snd pair) silent = Ok pool)
      pairs found ->
    v2_pool_objects self pairs silent pool_objects log
    = (Ok (pool_objects ++ found), log).
Proof.
  induction pairs as [| [a b] pairs IH]; intros found acc log Hall;
    inversion Hall as [| ? pool ? found' (get_pool & Hm & Hg) Hrest]; subst.
  - now rewrite app_nil_r.
  - cbn [v2_pool_objects]; cbn [fst snd] in Hg.
    unfold bind at 1, try_except, bind, read_attr, lift, ret.
    rewrite Hm, Hg, (IH found' (acc ++ [pool]) log Hrest).
    now rewrite <- app_assoc.
Qed.

Lemma v2_exact_in_loop_returns (C : collaborators) (swap_in_quantity : Z) :
  forall pools i token_in token_out token_out_quantity future_pool_states log q,
    (if Nat.eqb i 0 then swap_in_quantity = q else token_out_quantity = Some q) ->
    hops_answered C q (if Nat.eqb i 0 then token_in else token_out) pools ->
    exists entries log',
      v2_exact_in_loop C pools i swap_in_quantity token_in token_out
        token_out_quantity future_pool_states log = (Ok entries, log').
Proof.
  induction pools as [| pool pools IH];
    intros i token_in token_out toq acc log q Hq Hhops.
  - now exists acc, log.
  - inversion Hhops as [| ? ? ? ? future_state out Hanswer Hout Hrest]; subst.
    rewrite (hop_unfold C pool pools i swap_in_quantity q token_in token_out toq
               acc future_state log Hq Hanswer).
    assert (Hdec : forall l,
      reserve_decrease (state pool) future_state l = (Ok out, l)).
    { intros l; unfold reserve_decrease, ret, raise.
      destruct Hout as [[H0 ->] | (H0 & H1 & ->)].
      - destruct (Z.ltb_spec (reserves_token0 future_state)
                    (reserves_token0 (state pool))); [reflexivity | lia].
      - destruct (Z.ltb_spec (reserves_token0 future_state)
                    (reserves_token0 (state pool))); [lia |].
        destruct (Z.ltb_spec (reserves_token1 future_state)
                    (reserves_token1 (state pool))); [reflexivity | lia]. }
    rewrite (bind_ok _ _ _ _ _ (Hdec _)).
    apply IH with (q := out); [reflexivity | exact Hrest].
Qed.

(** The V2 exact-input driver returns whenever its collaborators answer: the
    manager has a pool for every pair, the token manager knows the two ends of
    the path, and at every hop the simulator answers with a state in which a
    reserve went down. *)
Theorem v2_swap_exact_in_returns
    (C : collaborators) (self : UniswapTransaction) (params_ : params_dict)
    (unwrapped_input silent : bool) (pools : list LiquidityPool)
    (first last : address) (token_in token_out : Erc20Token) :
  pools_of_path self silent (path params_) pools ->
  hd_error (path params_) = Some first ->
  hd_error (rev (path params_)) = Some last ->
  get_erc20token C (VStr first) silent = Ok token_in ->
  get_erc20token C (VStr last) silent = Ok token_out ->
  hops_answered C (if unwrapped_input then value self else amountIn params_)
    token_in pools ->
  exists entries log,
    run (v2_swap_exact_in C self params_ unwrapped_input silent) = (Ok entries, log).
Proof.
  intros Hpools Hfirst Hlast Hin Hout Hhops.
  unfold run, v2_swap_exact_in.
  rewrite (bind_ok _ _ _ _ _
             (v2_pool_objects_found self silent _ pools [] [] Hpools)).
  cbn [app].
  unfold first_item, last_item.
  destruct (path params_) as [| a rest]; [discriminate |].
  inversion Hfirst; subst a.
  unfold bind at 1, ret.
  unfold bind at 1, lift; rewrite Hin.
  destruct (rev (first :: rest)) as [| b rest']; [discriminate |].
  inversion Hlast; subst b.
  unfold bind at 1, ret.
  unfold bind at 1; rewrite Hout.
  now apply v2_exact_in_loop_returns
    with (q := if unwrapped_input then value self else amountIn params_).
Qed.

(** ** The direction test of a V2 exact-input hop *)

(** C6, as the code has it.  At any hop of the V2 exact-input loop the
    simulator has answered: when neither reserve went down the hop is
    rejected with the [ValueError] "Swap direction could not be identified";
    when the reserve of token0 went down the hop is accepted with that
    decrease as its output, also when the reserve of token1 went down with
    it. *)
Theorem v2_exact_in_hop_direction
    (C : collaborators) (pool : LiquidityPool) (rest : list LiquidityPool)
    (i : nat) (swap_in_quantity q : Z) (token_in token_out : Erc20Token)
    (token_out_quantity : option Z) (future_pool_states : list entry)
    (future_state : v2_state) (log : list sim_call) :
  let hop_token_in := if Nat.eqb i 0 then token_in else token_out in
  let hop_token_out :=
    if token_is hop_token_in (token1 pool) then token0 pool else token1 pool in
  (if Nat.eqb i 0 then swap_in_quantity = q else token_out_quantity = Some q) ->
  v2_simulate_swap_in C pool hop_token_in q = Ok future_state ->
  (reserves_token0 (state pool) <= reserves_token0 future_state ->
   reserves_token1 (state pool) <= reserves_token1 future_state ->
   v2_exact_in_loop C (pool :: rest) i swap_in_quantity token_in token_out
     token_out_quantity future_pool_states log
   = (Raise (ValueError SwapDirectionNotIdentified),
      log ++ [V2SwapIn pool hop_token_in q]))
  /\ (reserves_token0 future_state < reserves_token0 (state pool) ->
      v2_exact_in_loop C (pool :: rest) i swap_in_quantity token_in token_out
        token_out_quantity future_pool_states log
      = v2_exact_in_loop C rest (S i) swap_in_quantity hop_token_in hop_token_out
          (Some (reserves_token0 (state pool) - reserves_token0 future_state))
          (future_pool_states ++ [V2Entry pool future_state])
          (log ++ [V2SwapIn pool hop_token_in q])).
Proof.
  intros hop_token_in hop_token_out Hq Hanswer.
  split; intros H0; [intros H1 |];
    rewrite (hop_unfold C pool rest i swap_in_quantity q token_in token_out
               token_out_quantity future_pool_states future_state log Hq Hanswer);
    unfold bind, reserve_decrease, ret, raise;
    destruct (Z.ltb_spec (reserves_token0 future_state)
                (reserves_token0 (state pool))); try lia; try reflexivity.
  destruct (Z.ltb_spec (reserves_token1 future_state)
              (reserves_token1 (state pool))); [lia | reflexivity].
Qed.

Lemma v2_exact_in_hop_direction_witness :
  v2_exact_in_loop
    (World.world_answering {| reserves_token0 := 1000; reserves_token1 := 2000 |})
    [World.poolAB] 0 100 World.tokenA World.tokenB None [] []
  = (Raise (ValueError SwapDirectionNotIdentified),
     [V2SwapIn World.poolAB World.tokenA 100])
  /\ v2_exact_in_loop
       (World.world_answering {| reserves_token0 := 900; reserves_token1 := 1900 |})
       [World.poolAB] 0 100 World.tokenA World.tokenB None [] []
     = (Ok [V2Entry World.poolAB {| reserves_token0 := 900; reserves_token1 := 1900 |}],
        [V2SwapIn World.poolAB World.tokenA 100]).
Proof.
  split.
  - apply (proj1 (v2_exact_in_hop_direction
                    (World.world_answering
                       {| reserves_token0 := 1000; reserves_token1 := 2000 |})
                    World.poolAB [] 0 100 100 World.tokenA World.tokenB None [] _ []
                    eq_refl eq_refl)); simpl; lia.
  - rewrite (proj2 (v2_exact_in_hop_direction
                    (World.world_answering
                       {| reserves_token0 := 900; reserves_token1 := 1900 |})
                    World.poolAB [] 0 100 100 World.tokenA World.tokenB None [] _ []
                    eq_refl eq_refl)); [reflexivity | simpl; lia].
Defined.

(** The answers the specification names, through [simulate]: both reserves
    up and both unchanged end in a [TransactionError] that carries the
    direction error. *)
Lemma simulate_direction_error :
  forall future_state,
    In future_state [ {| reserves_token0 := 1100; reserves_token1 := 2100 |};
                      {| reserves_token0 := 1000; reserves_token1 := 2000 |} ] ->
    run (simulate (World.world_answering future_state)
           (World.transaction "swapExactTokensForTokens"
              {| path := ["A"; "B"]; amountIn := 100; amountOut := 0;
                 params := None; data := [] |} 0)
           1 0 None None true)
    = (Raise (TransactionError (NotCalculated (ValueError SwapDirectionNotIdentified))),
       [V2SwapIn World.poolAB World.tokenA 100]).
Proof.
  intros future_state [<- | [<- | []]]; reflexivity.
Qed.

(** C6 as stated fails: an answer in which both reserves went down is not
    rejected; the driver takes the decrease of token0 and returns. *)
Lemma v2_exact_in_both_decrease_accepted :
  run (simulate
         (World.world_answering {| reserves_token0 := 900; reserves_token1 := 1900 |})
         (World.transaction "swapExactTokensForTokens"
            {| path := ["A"; "B"]; amountIn := 100; amountOut := 0;
               params := None; data := [] |} 0)
         1 0 None None true)
  = (Ok [V2Entry World.poolAB {| reserves_token0 := 900; reserves_token1 := 1900 |}],
     [V2SwapIn World.poolAB World.tokenA 100])
  /\ reserves_token0 {| reserves_token0 := 900; reserves_token1 := 1900 |}
     < reserves_token0 (state World.poolAB)
  /\ reserves_token1 {| reserves_token0 := 900; reserves_token1 := 1900 |}
     < reserves_token1 (state World.poolAB).
Proof. repeat split. Qed.

(** ** The V2 exact-output driver *)

Lemma v2_exact_out_loop_calls (C : collaborators) (swap_out_quantity : Z) :
  forall pools i token_in token_out token_out_quantity future_pool_states log,
    (if Nat.eqb i 0 then True else token_out_quantity = Some swap_out_quantity) ->
    exists calls,
      snd (v2_exact_out_loop C pools i swap_out_quantity token_in token_out
             token_out_quantity future_pool_states log) = log ++ calls
      /\ Forall (fun c => exists pool token, c = V2SwapOut pool token swap_out_quantity)
           calls.
Proof.
  induction pools as [| pool pools IH]; intros i tin tout toq acc log Hq.
  - exists []; rewrite app_nil_r; split; [reflexivity | constructor].
  - cbn [v2_exact_out_loop].
    assert (Hread :
      (if Nat.eqb i 0 then ret swap_out_quantity else read_var toq) log
      = (Ok swap_out_quantity, log)).
    { destruct (Nat.eqb i 0); [| rewrite Hq]; reflexivity. }
    rewrite (bind_ok _ _ _ _ _ Hread).
    set (t_out := if Nat.eqb i 0 then tout else tin).
    assert (Hone : Forall
      (fun c => exists pool token, c = V2SwapOut pool token swap_out_quantity)
      [V2SwapOut pool t_out swap_out_quantity]).
    { constructor; [now exists pool, t_out | constructor]. }
    unfold bind at 1, record_call.
    unfold bind at 1, lift.
    destruct (v2_simulate_swap_out C pool t_out swap_out_quantity)
      as [future_state | e |]; try (now eexists; split; [reflexivity |]).
    unfold bind at 1, reserve_increase, ret, raise.
    destruct (reserves_token0 future_state >? reserves_token0 (state pool));
      [| destruct (reserves_token1 future_state >? reserves_token1 (state pool))];
      try (now eexists; split; [reflexivity |]).
    all: match goal with
         | |- context [v2_exact_out_loop _ _ (S _) _ ?a ?b ?c ?d ?l] =>
             destruct (IH (S i) a b c d l eq_refl) as (calls & -> & Hcalls)
         end;
      exists (V2SwapOut pool t_out swap_out_quantity :: calls);
      rewrite <- app_assoc; split; [reflexivity |];
      constructor; [now exists pool, t_out | assumption].
Qed.

(** Every call of the simulator the V2 exact-output driver makes carries the
    caller's [amountOut]: no hop is asked for the input derived at the hop
    processed before it. *)
Theorem v2_swap_exact_out_every_call_amountOut
    (C : collaborators) (self : UniswapTransaction) (params_ : params_dict)
    (unwrapped_input silent : bool) :
  Forall (fun c => exists pool token, c = V2SwapOut pool token (amountOut params_))
    (snd (run (v2_swap_exact_out C self params_ unwrapped_input silent))).
Proof.
  unfold run, v2_swap_exact_out.
  assert (Hkeep : forall A (m : M A) B (k : A -> M B),
            (forall log, snd (m log) = log) ->
            (forall a, Forall (fun c => exists pool token,
                                 c = V2SwapOut pool token (amountOut params_))
                         (snd (k a []))) ->
            Forall (fun c => exists pool token,
                      c = V2SwapOut pool token (amountOut params_))
              (snd (bind m k []))).
  { intros A m B k Hm Hk; unfold bind.
    specialize (Hm []); destruct (m []) as [[a | e |] l]; cbn in Hm; subst;
      [apply Hk | constructor | constructor]. }
  apply Hkeep.
  { intros log; generalize (@nil LiquidityPool) as acc.
    induction (pairwise (path params_)) as [| [a b] pairs IH]; intros acc;
      [reflexivity |].
    cbn [v2_pool_objects]; unfold bind at 1, try_except, bind, read_attr, lift, raise.
    destruct (v2_pool_manager self) as [get_pool |]; [| reflexivity].
    cbn; destruct (get_pool a b silent) as [pool | e |];
      [apply IH | destruct e; reflexivity | reflexivity]. }
  intros pools; apply Hkeep.
  { intros log; unfold first_item; destruct (path params_); reflexivity. }
  intros a_in; apply Hkeep.
  { intros log; unfold lift; reflexivity. }
  intros token_in; apply Hkeep.
  { intros log; unfold last_item; destruct (rev (path params_)); reflexivity. }
  intros a_out; apply Hkeep.
  { intros log; unfold lift; reflexivity. }
  intros token_out.
  destruct (v2_exact_out_loop_calls C (amountOut params_) (rev pools) 0
              token_in token_out None [] [] I) as (calls & -> & Hcalls).
  exact Hcalls.
Qed.

(** C2 at a concrete swap.  For the path A, B, C and [amountOut = 100] the
    pools are processed last first; the input derived at pool (B, C) is 215,
    and the simulator is asked at pool (A, B) for 100 again. *)
Theorem v2_swap_exact_out_ABC :
  run (v2_swap_exact_out World.world
         (World.transaction "swapTokensForExactTokens" (World.swap_ABC 0 100) 0)
         (World.swap_ABC 0 100) false true)
  = (Ok [V2Entry World.poolBC {| reserves_token0 := 3215; reserves_token1 := 1400 |};
         V2Entry World.poolAB {| reserves_token0 := 1053; reserves_token1 := 1900 |}],
     [V2SwapOut World.poolBC World.tokenC 100;
      V2SwapOut World.poolAB World.tokenB 100])
  /\ reserve_increase (state World.poolBC)
       {| reserves_token0 := 3215; reserves_token1 := 1400 |} []
     = (Ok 215, []).
Proof. split; reflexivity. Qed.

(** C10.  Under [unwrapped_input] the V2 exact-output driver gives the same
    outcome, entries or exception, and asks the simulator the same questions
    whatever value is attached to the transaction. *)
Theorem v2_swap_exact_out_ignores_value
    (C : collaborators) (self : UniswapTransaction) (params_ : params_dict)
    (silent : bool) (v1 v2 : Z) :
  run (v2_swap_exact_out C (with_value self v1) params_ true silent)
  = run (v2_swap_exact_out C (with_value self v2) params_ true silent).
Proof. reflexivity. Qed.

(** The same through [simulate], for a transaction that calls
    [swapETHForExactTokens]. *)
Lemma simulate_swapETHForExactTokens_ignores_value
    (C : collaborators) (self : UniswapTransaction) (params_ : params_dict)
    (recursion_limit fuel : nat) (silent : bool) (v1 v2 : Z) :
  run (simulate C (with_value self v1) recursion_limit fuel
         (Some "swapETHForExactTokens") (Some params_) silent)
  = run (simulate C (with_value self v2) recursion_limit fuel
           (Some "swapETHForExactTokens") (Some params_) silent).
Proof. destruct recursion_limit; reflexivity. Qed.

(** ** The V3 exact-output driver *)

(** The expression for the implied input gives the greater of the two signed
    deltas: one of the two, and no smaller than either. *)
Lemma exact_out_amountIn_signed_max (swap_info : v3_swap_info) :
  (exact_out_amountIn swap_info = amount0_delta swap_info
   \/ exact_out_amountIn swap_info = amount1_delta swap_info)
  /\ amount0_delta swap_info <= exact_out_amountIn swap_info
  /\ amount1_delta swap_info <= exact_out_amountIn swap_info.
Proof. unfold exact_out_amountIn; lia. Qed.

(** With deltas of opposite signs it is the positive one, the token that
    entered the pool, whatever the magnitudes. *)
Lemma exact_out_amountIn_opposite_signs (d_in d_out : Z) :
  0 < d_in -> d_out <= 0 ->
  exact_out_amountIn {| amount0_delta := d_in; amount1_delta := d_out |} = d_in
  /\ exact_out_amountIn {| amount0_delta := d_out; amount1_delta := d_in |} = d_in.
Proof. unfold exact_out_amountIn; cbn; lia. Qed.

(** It is the delta larger in magnitude exactly when the two deltas do not
    sum to less than zero. *)
Lemma exact_out_amountIn_magnitude (swap_info : v3_swap_info) :
  Z.abs (exact_out_amountIn swap_info)
  = Z.abs (larger_in_magnitude (amount0_delta swap_info) (amount1_delta swap_info))
  <-> 0 <= amount0_delta swap_info + amount1_delta swap_info
      \/ amount0_delta swap_info = amount1_delta swap_info.
Proof.
  unfold exact_out_amountIn, larger_in_magnitude.
  destruct (Z.ltb_spec (Z.abs (amount0_delta swap_info))
              (Z.abs (amount1_delta swap_info))); lia.
Qed.

(** With 100 entering and 500 leaving the pool the delta larger in magnitude
    is -500, and the expression gives 100. *)
Lemma exact_out_amountIn_not_larger_in_magnitude :
  exact_out_amountIn {| amount0_delta := 100; amount1_delta := -500 |} = 100
  /\ larger_in_magnitude 100 (-500) = -500
  /\ exact_out_amountIn {| amount0_delta := 100; amount1_delta := -500 |}
     <> larger_in_magnitude 100 (-500).
Proof. repeat split; discriminate. Qed.

(** The test after the simulation raises exactly when a bound is given, is
    not zero, and the derived input lies below it. *)
Lemma check_amountInMaximum_int (bound amountIn : Z) (log : list sim_call) :
  check_amountInMaximum (VInt bound) amountIn log
  = if negb (bound =? 0) && (amountIn <? bound)
    then (Raise (TransactionError (AmountInBelow amountIn bound)), log)
    else (Ok tt, log).
Proof.
  unfold check_amountInMaximum, truthy.
  destruct (bound =? 0); cbn; [reflexivity |].
  destruct (amountIn <? bound); reflexivity.
Qed.

(** A derived input above the bound passes the test. *)
Lemma check_amountInMaximum_exceeded (bound amountIn : Z) (log : list sim_call) :
  bound < amountIn -> check_amountInMaximum (VInt bound) amountIn log = (Ok tt, log).
Proof.
  intros H; rewrite check_amountInMaximum_int.
  destruct (Z.ltb_spec amountIn bound); [lia |].
  now rewrite andb_false_r.
Qed.

(** C1 at a concrete swap.  [exactOutputSingle] for 100 of B with
    [amountInMaximum = 100]: the simulator answers with deltas that imply an
    input of 150, and the simulation returns its entry.  With
    [amountInMaximum = 200] the same input of 150 is within the bound, and
    the simulation raises. *)
Theorem exactOutputSingle_slippage :
  World.swap_out_v3 {| v3_address := "AB"; v3_token0 := World.tokenA;
                       v3_token1 := World.tokenB; v3_fee := 3000 |}
    World.tokenB (VInt 100) (VInt 0)
  = Ok ({| amount0_delta := 150; amount1_delta := -100 |}, World.state_v3)
  /\ fst (run (simulate World.world
                 (World.transaction "exactOutputSingle" (World.exactOutputSingle_AB 100 100) 0)
                 1 0 None None true))
     = Ok [World.entry_AB]
  /\ fst (run (simulate World.world
                 (World.transaction "exactOutputSingle" (World.exactOutputSingle_AB 100 200) 0)
                 1 0 None None true))
     = Raise (TransactionError (AmountInBelow 150 200)).
Proof. repeat split. Qed.

(** ** The encoded-path branches *)



(** The unpacking of what a V3 driver returns never succeeds. *)
Lemma unpack_three_one (e : entry) (log : list sim_call) :
  unpack_three [e] log = (Raise (ValueError NotEnoughValuesToUnpack), log).
Proof. reflexivity. Qed.






(** C3 at a concrete path of two pools.  The path decodes into its two
    triples; [exactInput] and [exactOutput] ask the simulator once, for the
    first triple, and end in a [TransactionError] for the failed unpacking of
    what the single-hop driver returned: no entry is returned and the second
    triple is never reached. *)
Theorem exactInput_two_pools :
  decode_path 6 World.path_three
  = Ok [VStr World.hex_a; VInt 3000; VStr World.hex_b; VInt 500;
        VStr "cccccccccccccccccccccccccccccccccccccccc"]
  /\ run (simulate World.world
            (World.transaction "exactInput" (World.encoded_router World.path_three 100 1) 0)
            1 6 None None true)
     = (Raise (TransactionError (NotCalculated (ValueError NotEnoughValuesToUnpack))),
        [V3SwapIn (World.pool_v3 World.hex_a World.hex_b 3000) {| token_address := World.hex_a |} (VInt 100)])
  /\ run (simulate World.world
            (World.transaction "exactOutput" (World.encoded_router World.path_three 100 1000) 0)
            1 6 None None true)
     = (Raise (TransactionError (NotCalculated (ValueError NotEnoughValuesToUnpack))),
        [V3SwapOut (World.pool_v3 World.hex_b World.hex_a 3000) {| token_address := World.hex_a |}
           (VInt 100) VNone]).
Proof. repeat split. Qed.

(** C8 at concrete calls.  [exactInput] with the four fields of the Router2
    ABI: on a path of one address the silent simulation returns the empty
    list and the verbose one raises [UnboundLocalError], for the deadline no
    unpacking has bound; on a path of two pools both raise, and not the same
    exception.  [exactOutput] behaves alike. *)
Theorem silent_changes_result :
  run (simulate World.world
         (World.transaction "exactInput" (World.encoded_router2 World.path_one 100 1) 0)
         1 6 None None true) = (Ok [], [])
  /\ run (simulate World.world
            (World.transaction "exactInput" (World.encoded_router2 World.path_one 100 1) 0)
            1 6 None None false) = (Raise UnboundLocalError, [])
  /\ fst (run (simulate World.world
                 (World.transaction "exactInput"
                    (World.encoded_router2 World.path_three 100 1) 0)
                 1 6 None None true))
     = Raise (TransactionError (NotCalculated (ValueError NotEnoughValuesToUnpack)))
  /\ fst (run (simulate World.world
                 (World.transaction "exactInput"
                    (World.encoded_router2 World.path_three 100 1) 0)
                 1 6 None None false))
     = Raise UnboundLocalError
  /\ run (simulate World.world
            (World.transaction "exactOutput" (World.encoded_router2 World.path_one 100 1) 0)
            1 6 None None true) = (Ok [], [])
  /\ run (simulate World.world
            (World.transaction "exactOutput" (World.encoded_router2 World.path_one 100 1) 0)
            1 6 None None false) = (Raise UnboundLocalError, []).
Proof. repeat split. Qed.

(** C5 at concrete paths.  On ten bytes the decoding loop never ends,
    whatever the number of turns: no error is raised.  Twenty-three bytes,
    an address and a fee with no address behind, are decoded without an
    error, and so is the empty path; [exactInput] on such a path returns
    the empty list. *)
Theorem decode_path_malformed :
  (forall fuel, decode_path fuel (repeat x00 10) = Diverge)
  /\ decode_path 3 (repeat x00 23)
     = Ok [VStr "0000000000000000000000000000000000000000"; VInt 0]
  /\ decode_path 1 [] = Ok []
  /\ run (simulate World.world
            (World.transaction "exactInput" (World.encoded_router (repeat x00 23) 100 1) 0)
            1 3 None None true) = (Ok [], []).
Proof.
  split; [| repeat split].
  intros fuel; apply decode_path_diverges; intros k; cbn; lia.
Qed.

(** ** Multicall *)

Lemma decode_attempt {A} (decoded : outcome (string * params_dict))
    (payload_func : option string) (payload_args : option params_dict)
    (k : option string * option params_dict -> M A) (log : list sim_call) :
  bind
    (try_except
       (bind (lift decoded) (fun x => match x with (f, a) => ret (Some f, Some a) end))
       (fun _ => ret (payload_func, payload_args)))
    k log
  = match decoded with
    | Ok (f, a) => k (Some f, Some a) log
    | Raise _ => k (payload_func, payload_args) log
    | Diverge => (Diverge, log)
    end.
Proof.
  unfold bind, try_except, lift, ret.
  destruct decoded as [[f a] | e |]; reflexivity.
Qed.

(** When every payload is decoded under an ABI and the multicall returns,
    its entries are those of the payloads, in payload order, each payload
    with the entries [simulate] gave for it. *)
Theorem multicall_payload_order (C : collaborators)
    (simulate_ : option string -> option params_dict -> bool -> M (list entry))
    (silent : bool) :
  forall payloads payload_func payload_args future_state log entries log',
    Forall (fun p => last_decoding C p <> None) payloads ->
    multicall_loop C simulate_ payloads silent payload_func payload_args
      future_state log = (Ok entries, log') ->
    exists parts,
      entries = future_state ++ List.concat parts
      /\ Forall2
           (fun p part =>
              exists fn_name args l1 l2,
                last_decoding C p = Some (fn_name, args)
                /\ simulate_ (Some fn_name) (Some args) silent l1 = (Ok part, l2))
           payloads parts.
Proof.
  induction payloads as [| p payloads IH];
    intros pf pa acc log entries log' Hall H.
  - inversion H; subst; exists []; cbn; rewrite app_nil_r; split; constructor.
  - inversion Hall as [| ? ? Hp Hrest]; subst.
    cbn [multicall_loop] in H; rewrite decode_attempt in H.
    assert (Hkept : exists f a,
      last_decoding C p = Some (f, a)
      /\ bind
           (try_except
              (fn_name <- read_var (Some f) ;; args <- read_var (Some a) ;;
               simulate_ (Some fn_name) (Some args) silent)
              (fun e => raise (TransactionError (MulticallNotDecoded e))))
           (fun r =>
              multicall_loop C simulate_ payloads silent (Some f) (Some a)
                (acc ++ r))
           log = (Ok entries, log')).
    { unfold last_decoding in Hp |- *.
      destruct (decode_router C p) as [[f1 a1] | e1 |];
        [| | discriminate];
        rewrite decode_attempt in H;
        destruct (decode_router2 C p) as [[f2 a2] | e2 |];
        try discriminate; try contradiction; eauto. }
    destruct Hkept as (f & a & Hdec & Hrun).
    apply bind_inv_ok in Hrun as (part & l2 & Hsim & Hloop).
    apply IH in Hloop as (parts & -> & Hparts); [| assumption].
    exists (part :: parts); cbn [List.concat]; rewrite app_assoc.
    split; [reflexivity |].
    constructor; [| assumption].
    exists f, a, log, l2; split; [assumption |].
    unfold try_except, bind, read_var, ret in Hsim.
    destruct (simulate_ (Some f) (Some a) silent log) as [[r | e |] l'];
      inversion Hsim; reflexivity.
Qed.

Lemma multicall_payload_order_witness :
  exists parts,
    [World.entry_AB; V3Entry (World.pool_v3 "B" "C" 500) World.state_v3]
    = [] ++ List.concat parts
    /\ Forall2
         (fun p part =>
            exists fn_name args l1 l2,
              last_decoding World.world p = Some (fn_name, args)
              /\ simulate World.world
                   (World.transaction "multicall" (World.multicall [[x01]; [x02]]) 0)
                   1 0 (Some fn_name) (Some args) true l1 = (Ok part, l2))
         [[x01]; [x02]] parts.
Proof.
  apply (multicall_payload_order World.world
           (simulate World.world
              (World.transaction "multicall" (World.multicall [[x01]; [x02]]) 0) 1 0)
           true [[x01]; [x02]] None None [] []
           [World.entry_AB; V3Entry (World.pool_v3 "B" "C" 500) World.state_v3]
           [V3SwapIn (World.pool_v3 "A" "B" 3000) World.tokenA (VInt 400);
            V3SwapOut (World.pool_v3 "B" "C" 500) World.tokenC (VInt 100) (VInt 0)]).
  - repeat constructor; discriminate.
  - reflexivity.
Defined.

(** C4 at concrete batches.  A payload no ABI decodes, behind one that is
    decoded: the multicall does not fail, it simulates the decoded payload a
    second time and returns its entry twice.  The same two payloads the other
    way round: the multicall fails with a [TransactionError].  Two decoded
    payloads: their entries in payload order. *)
Theorem multicall_malformed_payload :
  last_decoding World.world [xff] = None
  /\ run (simulate World.world
            (World.transaction "multicall" (World.multicall [[x01]; [xff]]) 0)
            2 0 None None true)
     = (Ok [World.entry_AB; World.entry_AB],
        [V3SwapIn (World.pool_v3 "A" "B" 3000) World.tokenA (VInt 400);
         V3SwapIn (World.pool_v3 "A" "B" 3000) World.tokenA (VInt 400)])
  /\ run (simulate World.world
            (World.transaction "multicall" (World.multicall [[xff]; [x01]]) 0)
            2 0 None None true)
     = (Raise (TransactionError (MulticallNotDecoded UnboundLocalError)), [])
  /\ run (simulate World.world
            (World.transaction "multicall" (World.multicall [[x01]; [x02]]) 0)
            2 0 None None true)
     = (Ok [World.entry_AB; V3Entry (World.pool_v3 "B" "C" 500) World.state_v3],
        [V3SwapIn (World.pool_v3 "A" "B" 3000) World.tokenA (VInt 400);
         V3SwapOut (World.pool_v3 "B" "C" 500) World.tokenC (VInt 100) (VInt 0)]).
Proof. repeat split. Qed.

(** * Further properties *)

(** ** Path decoding *)

Lemma decode_path_segments_witness :
  decode_path 6 World.path_three
  = Ok (segments 2 World.path_three).
Proof. apply (decode_path_segments 2 6 World.path_three); [reflexivity | lia]. Defined.

Lemma decode_loop_fee_terminated (k : nat) :
  forall fuel path pos acc,
    List.length path = (pos + 23 * k)%nat ->
    (2 * k + 1 <= fuel)%nat ->
    decode_loop fuel path pos 20 acc
    = Ok (acc ++ fee_terminated k (skipn pos path)).
Proof.
  induction k as [| k IH]; intros fuel path pos acc Hlen Hfuel.
  - destruct fuel as [| fuel]; [lia |].
    rewrite decode_loop_end by lia.
    cbn [fee_terminated]; now rewrite app_nil_r.
  - destruct fuel as [| [| fuel]]; try lia.
    rewrite decode_loop_address by lia.
    rewrite decode_loop_fee by lia.
    replace (pos + 20 + 3)%nat with (pos + 23)%nat by lia.
    rewrite IH by lia.
    rewrite <- !app_assoc; cbn [app fee_terminated].
    unfold slice; rewrite !skipn_skipn.
    now rewrite (Nat.add_comm 20 pos), (Nat.add_comm 23 pos).
Qed.

(** The decoding loop ends on exactly two kinds of length: [20 + 23k], an
    address after every fee, and [23k], a fee after every address.  On every
    other length it runs for ever. *)
Theorem decode_path_terminates_iff (path : list byte) :
  (exists fuel decoded, decode_path fuel path = Ok decoded)
  <-> exists k, List.length path = (20 + 23 * k)%nat
                \/ List.length path = (23 * k)%nat.
Proof.
  split.
  - intros (fuel & decoded & H).
    destruct (Nat.eq_dec (List.length path mod 23) 20) as [E | N20].
    { exists (List.length path / 23)%nat; left.
      pose proof (Nat.div_mod_eq (List.length path) 23); lia. }
    destruct (Nat.eq_dec (List.length path mod 23) 0) as [E | N0].
    { exists (List.length path / 23)%nat; right.
      pose proof (Nat.div_mod_eq (List.length path) 23); lia. }
    rewrite decode_path_diverges in H; [discriminate | |]; intros k E.
    + apply N20; rewrite E.
      replace (20 + 23 * k)%nat with (20 + k * 23)%nat by lia.
      now rewrite Nat.Div0.mod_add.
    + apply N0; rewrite E, Nat.mul_comm; apply Nat.Div0.mod_mul.
  - intros (k & [H | H]).
    + exists (2 * k + 2)%nat, ([] ++ segments k (skipn 0 path)).
      unfold decode_path; apply decode_loop_segments; [exact H | lia].
    + exists (2 * k + 1)%nat, ([] ++ fee_terminated k (skipn 0 path)).
      unfold decode_path; apply decode_loop_fee_terminated; [exact H | lia].
Qed.

(** The decoder has no error of its own: it returns or it runs for ever. *)
Theorem decode_path_returns_or_runs_on (fuel : nat) (path : list byte) :
  decode_path fuel path = Diverge \/ exists decoded, decode_path fuel path = Ok decoded.
Proof.
  destruct (decode_path fuel path) as [decoded | e |] eqn:E; eauto.
  now apply decode_path_never_raises in E.
Qed.

Lemma firstn_exact {A} (a b : list A) (n : nat) :
  List.length a = n -> firstn n (a ++ b) = a.
Proof.
  intros <-; induction a as [| x a IH]; cbn; [now destruct b | now rewrite IH].
Qed.

Lemma skipn_exact {A} (a b : list A) (n : nat) :
  List.length a = n -> skipn n (a ++ b) = b.
Proof. intros <-; induction a as [| x a IH]; cbn; [reflexivity | exact IH]. Qed.

Lemma byte_of_Z_value (z : Z) :
  0 <= z < 256 -> Z.of_N (Byte.to_N (byte_of_Z z)) = z.
Proof.
  intros H; unfold byte_of_Z.
  destruct (Byte.of_N (Z.to_N z)) as [b |] eqn:E.
  - apply Byte.to_of_N in E; rewrite E; lia.
  - apply Byte.of_N_None_iff in E; lia.
Qed.

Lemma big_endian_fee_bytes (fee : Z) :
  0 <= fee < 16777216 -> big_endian (fee_bytes fee) = fee.
Proof.
  intros H; unfold big_endian, fee_bytes; cbn [fold_left].
  rewrite !byte_of_Z_value.
  - pose proof (Z.div_mod fee 256); pose proof (Z.div_mod (fee / 256) 256).
    replace (fee / 65536) with (fee / 256 / 256)
      by (rewrite Z.div_div by lia; reflexivity).
    lia.
  - apply Z.mod_pos_bound; lia.
  - apply Z.mod_pos_bound; lia.
  - split; [apply Z.div_pos; lia | apply Z.div_lt_upper_bound; lia].
Qed.

Lemma encode_path_length (hops : list (Z * list byte)) :
  forall token,
    List.length token = 20%nat -> Forall well_formed_hop hops ->
    List.length (encode_path token hops) = (20 + 23 * List.length hops)%nat.
Proof.
  induction hops as [| [fee next] hops IH]; intros token Ht Hh; cbn [encode_path].
  - rewrite app_nil_r; cbn; lia.
  - inversion Hh as [| ? ? [_ Hn] Hrest]; subst; cbn [snd] in Hn.
    rewrite !length_app, (IH next Hn Hrest); cbn [List.length fee_bytes]; lia.
Qed.

Lemma segments_encode_path (hops : list (Z * list byte)) :
  forall token,
    List.length token = 20%nat -> Forall well_formed_hop hops ->
    segments (List.length hops) (encode_path token hops) = decoded_path token hops.
Proof.
  induction hops as [| [fee next] hops IH]; intros token Ht Hh;
    cbn [encode_path segments decoded_path List.length].
  - now rewrite (firstn_exact token [] 20 Ht).
  - inversion Hh as [| ? ? [Hfee Hn] Hrest]; subst; cbn [fst snd] in Hfee, Hn.
    rewrite (firstn_exact token _ 20 Ht), (skipn_exact token _ 20 Ht).
    rewrite (firstn_exact (fee_bytes fee) _ 3 eq_refl).
    rewrite big_endian_fee_bytes by exact Hfee.
    rewrite app_assoc, (skipn_exact (token ++ fee_bytes fee) _ 23)
      by (rewrite length_app, Ht; reflexivity).
    now rewrite (IH next Hn Hrest).
Qed.

(** Round trip.  The packed encoding of a token and of hops, each a fee
    below [2^24] and a twenty-byte token, is decoded into the hexadecimal
    form of the tokens with the fees between them. *)
Theorem decode_encode_path (token : list byte) (hops : list (Z * list byte)) :
  List.length token = 20%nat ->
  Forall well_formed_hop hops ->
  decode_path (2 * List.length hops + 2) (encode_path token hops)
  = Ok (decoded_path token hops).
Proof.
  intros Ht Hh.
  unfold decode_path.
  rewrite (decode_loop_segments (List.length hops));
    [| now rewrite encode_path_length | lia].
  cbn [app skipn]; now rewrite segments_encode_path.
Qed.

Lemma decode_encode_path_witness :
  decode_path 6 (encode_path (World.addr xaa) [(3000, World.addr xbb); (500, World.addr xcc)])
  = Ok [VStr World.hex_a; VInt 3000; VStr World.hex_b; VInt 500;
        VStr "cccccccccccccccccccccccccccccccccccccccc"].
Proof.
  apply (decode_encode_path (World.addr xaa)
           [(3000, World.addr xbb); (500, World.addr xcc)]).
  - reflexivity.
  - repeat constructor; cbn; lia.
Defined.

Lemma hex_length (b : list byte) :
  String.length (hex b) = (2 * List.length b)%nat.
Proof. induction b as [| x b IH]; cbn [hex String.length List.length]; lia. Qed.

Lemma hex_digit_lower (n : N) :
  let c := N_of_ascii (hex_digit n) in
  (((48 <=? c) && (c <=? 57)) || ((97 <=? c) && (c <=? 102)))%N = true.
Proof.
  destruct n as [| p]; [reflexivity |].
  do 4 (destruct p as [p | p |]; try reflexivity).
Qed.

Lemma hex_lower (b : list byte) : lower_hex (hex b) = true.
Proof.
  induction b as [| x b IH]; [reflexivity |].
  cbn [hex lower_hex].
  rewrite (hex_digit_lower (Byte.to_N x / 16)), (hex_digit_lower (Byte.to_N x mod 16)).
  exact IH.
Qed.

Lemma big_endian_bound (b : list byte) :
  0 <= big_endian b < 256 ^ Z.of_nat (List.length b).
Proof.
  unfold big_endian.
  assert (H : forall acc n, 0 <= acc < 256 ^ n -> 0 <= n ->
            0 <= fold_left (fun acc x => acc * 256 + Z.of_N (Byte.to_N x)) b acc
              < 256 ^ (n + Z.of_nat (List.length b))).
  { induction b as [| x b IH]; intros acc n Hacc Hn; cbn [fold_left List.length].
    - now rewrite Z.add_0_r.
    - pose proof (Byte.to_N_bounded x).
      replace (n + Z.of_nat (S (List.length b)))
        with ((n + 1) + Z.of_nat (List.length b)) by lia.
      apply IH; [| lia].
      rewrite Z.pow_add_r by lia; lia. }
  apply (H 0 0); lia.
Qed.

Lemma decode_loop_shape (path : list byte) :
  forall fuel pos len acc decoded,
    Forall decoded_shape acc ->
    decode_loop fuel path pos len acc = Ok decoded ->
    Forall decoded_shape decoded.
Proof.
  induction fuel as [| fuel IH]; intros pos len acc decoded Hacc H;
    [discriminate |].
  cbn [decode_loop] in H.
  destruct (Nat.eqb_spec pos (List.length path)); [now inversion H; subst |].
  destruct (Nat.eqb_spec len 20) as [-> | _]; cbn [andb] in H.
  - destruct (Nat.leb_spec (pos + 20) (List.length path)) as [Hle |];
      [| now apply IH in H].
    apply IH in H; [exact H |].
    apply Forall_app; split; [exact Hacc |].
    constructor; [| constructor]; cbn [decoded_shape].
    split; [| apply hex_lower].
    now rewrite hex_length, slice_length by exact Hle.
  - destruct (Nat.eqb_spec len 3) as [-> | _]; cbn [andb] in H;
      [| now apply IH in H].
    destruct (Nat.leb_spec (pos + 3) (List.length path)) as [Hle |];
      [| now apply IH in H].
    rewrite int16_hex in H by now apply slice_fee_nonempty.
    apply IH in H; [exact H |].
    apply Forall_app; split; [exact Hacc |].
    constructor; [| constructor]; cbn [decoded_shape].
    pose proof (big_endian_bound (slice path pos 3)) as Hb.
    now rewrite slice_length in Hb by exact Hle.
Qed.

(** Whatever the decoder returns, every address in it is a string of forty
    lowercase hexadecimal digits without prefix, and every fee is an integer
    from 0 to [2^24 - 1]. *)
Theorem decode_path_shape (fuel : nat) (path : list byte) (decoded : list pyval) :
  decode_path fuel path = Ok decoded -> Forall decoded_shape decoded.
Proof. apply decode_loop_shape; constructor. Qed.

Lemma decode_path_shape_witness :
  Forall decoded_shape
    [VStr World.hex_a; VInt 3000; VStr World.hex_b; VInt 500;
     VStr "cccccccccccccccccccccccccccccccccccccccc"].
Proof. apply (decode_path_shape 6 World.path_three); reflexivity. Defined.

(** ** The V2 drivers *)

Lemma v2_swap_exact_in_returns_witness :
  exists entries log,
    run (v2_swap_exact_in World.world
           (World.transaction "swapExactETHForTokens" (World.swap_ABC 0 0) 100)
           (World.swap_ABC 0 0) true false) = (Ok entries, log).
Proof.
  apply (v2_swap_exact_in_returns World.world
           (World.transaction "swapExactETHForTokens" (World.swap_ABC 0 0) 100)
           (World.swap_ABC 0 0) true false [World.poolAB; World.poolBC]
           "A" "C" World.tokenA World.tokenC).
  - repeat constructor; eexists; split; reflexivity.
  - reflexivity.
  - reflexivity.
  - reflexivity.
  - reflexivity.
  - eapply answered_hop;
      [reflexivity | right; cbn; split; [lia | split; [lia | reflexivity]] |].
    eapply answered_hop;
      [reflexivity | right; cbn; split; [lia | split; [lia | reflexivity]] |].
    constructor.
Defined.

Lemma reserve_increase_ok current_state future_state log q log' :
  reserve_increase current_state future_state log = (Ok q, log') ->
  (reserves_token0 current_state < reserves_token0 future_state
   \/ reserves_token1 current_state < reserves_token1 future_state)
  /\ log' = log.
Proof.
  unfold reserve_increase, ret, raise.
  destruct (Z.gtb_spec (reserves_token0 future_state) (reserves_token0 current_state))
    as [G0 | G0];
    [| destruct (Z.gtb_spec (reserves_token1 future_state)
                   (reserves_token1 current_state)) as [G1 | G1]];
    intros E; inversion E; subst; split; auto; lia.
Qed.

Lemma v2_exact_out_loop_answers (C : collaborators) (swap_out_quantity : Z) :
  forall pools i token_in token_out token_out_quantity future_pool_states log
         entries log',
    (if Nat.eqb i 0 then True else token_out_quantity = Some swap_out_quantity) ->
    v2_exact_out_loop C pools i swap_out_quantity token_in token_out
      token_out_quantity future_pool_states log = (Ok entries, log') ->
    exists es calls,
      entries = future_pool_states ++ es /\ log' = log ++ calls
      /\ answers_out C swap_out_quantity pools es calls.
Proof.
  induction pools as [| pool pools IH];
    intros i token_in token_out toq acc log entries log' Hq H.
  - inversion H; subst; exists [], []; rewrite !app_nil_r.
    repeat split; constructor.
  - cbn [v2_exact_out_loop] in H.
    assert (Hread :
      (if Nat.eqb i 0 then ret swap_out_quantity else read_var toq) log
      = (Ok swap_out_quantity, log)).
    { destruct (Nat.eqb i 0); [| rewrite Hq]; reflexivity. }
    rewrite (bind_ok _ _ _ _ _ Hread) in H.
    apply bind_inv_ok in H as (? & log1 & Hrec & H1).
    inversion Hrec; subst log1; clear Hrec.
    apply bind_inv_ok in H1 as (future_state & log2 & Hsim & H2).
    unfold lift in Hsim; inversion Hsim as [[Hs Hl]]; subst log2; clear Hsim.
    apply bind_inv_ok in H2 as (q_in & log3 & Hup & H3).
    apply reserve_increase_ok in Hup as [Hup ->].
    apply IH in H3; [| reflexivity].
    destruct H3 as (es & calls & -> & -> & Hrest).
    eexists (_ :: es), (_ :: calls); rewrite <- !app_assoc; cbn [app].
    repeat split.
    econstructor; eassumption.
Qed.

Lemma answers_out_pools C q pools entries calls :
  answers_out C q pools entries calls ->
  map v2_pool_of entries = map Some pools.
Proof. induction 1; cbn; [reflexivity | now f_equal]. Qed.

(** A successful run of the V2 exact-output driver resolves one pool per
    consecutive pair of the path and returns one entry per pool with the last
    pool of the path first; each entry holds the state the simulator answered
    when asked for the caller's [amountOut] at that pool. *)
Theorem v2_swap_exact_out_reverse_order
    (C : collaborators) (self : UniswapTransaction) (params_ : params_dict)
    (unwrapped_input silent : bool) (entries : list entry) (log : list sim_call) :
  run (v2_swap_exact_out C self params_ unwrapped_input silent) = (Ok entries, log) ->
  exists pools,
    pools_of_path self silent (path params_) pools
    /\ map v2_pool_of entries = map Some (rev pools)
    /\ answers_out C (amountOut params_) (rev pools) entries log.
Proof.
  unfold run, v2_swap_exact_out; intros H.
  apply bind_inv_ok in H as (pools & log1 & Hpools & H1).
  apply v2_pool_objects_ok in Hpools as (-> & found & -> & Hall).
  apply bind_inv_ok in H1 as (a_in & log2 & Ha & H2).
  apply bind_inv_ok in H2 as (token_in & log3 & Hti & H3).
  apply bind_inv_ok in H3 as (a_out & log4 & Hb & H4).
  apply bind_inv_ok in H4 as (token_out & log5 & Hto & H5).
  apply v2_exact_out_loop_answers in H5; [| exact I].
  destruct H5 as (es & calls & -> & -> & Hanswers).
  assert (log5 = []) as ->.
  { unfold first_item, last_item, lift, ret, raise in Ha, Hti, Hb, Hto.
    destruct (path params_); [discriminate |].
    inversion Ha; subst.
    destruct (get_erc20token C (VStr a_in) silent); inversion Hti; subst.
    destruct (rev (a_in :: l)); [discriminate |].
    inversion Hb; subst.
    destruct (get_erc20token C (VStr a_out) silent); inversion Hto; subst.
    reflexivity. }
  exists found; cbn [app] in *; repeat split; try assumption.
  now apply answers_out_pools in Hanswers.
Qed.

Lemma v2_swap_exact_out_reverse_order_witness :
  exists pools,
    pools_of_path (World.transaction "swapTokensForExactTokens" (World.swap_ABC 0 100) 0)
      true ["A"; "B"; "C"] pools
    /\ map v2_pool_of
         [V2Entry World.poolBC {| reserves_token0 := 3215; reserves_token1 := 1400 |};
          V2Entry World.poolAB {| reserves_token0 := 1053; reserves_token1 := 1900 |}]
       = map Some (rev pools)
    /\ answers_out World.world 100 (rev pools)
         [V2Entry World.poolBC {| reserves_token0 := 3215; reserves_token1 := 1400 |};
          V2Entry World.poolAB {| reserves_token0 := 1053; reserves_token1 := 1900 |}]
         [V2SwapOut World.poolBC World.tokenC 100;
          V2SwapOut World.poolAB World.tokenB 100].
Proof.
  apply (v2_swap_exact_out_reverse_order World.world
           (World.transaction "swapTokensForExactTokens" (World.swap_ABC 0 100) 0)
           (World.swap_ABC 0 100) false true).
  reflexivity.
Defined.

Lemma v2_pool_objects_missing (self : UniswapTransaction) (silent : bool)
    (get_pool : V2Manager) (a b : address) :
  v2_pool_manager self = Some get_pool ->
  get_pool a b silent = Raise LiquidityPoolError ->
  forall found rest pool_objects log,
    Forall (fun pair => exists pool, get_pool (fst pair) (snd pair) silent = Ok pool)
      found ->
    v2_pool_objects self (found ++ (a, b) :: rest) silent pool_objects log
    = (Raise (TransactionError (PoolNotBuilt a b)), log).
Proof.
  intros Hm Hmiss; induction found as [| [x y] found IH];
    intros rest acc log Hfound; cbn [app v2_pool_objects].
  - unfold bind at 1, try_except, bind, read_attr, lift, ret, raise.
    now rewrite Hm, Hmiss.
  - inversion Hfound as [| ? ? [pool Hp] Hrest]; subst; cbn [fst snd] in Hp.
    unfold bind at 1, try_except, bind, read_attr, lift, ret.
    rewrite Hm, Hp; now apply IH.
Qed.

(** When the manager has no pool for a pair of the path (and has one for
    every pair before it), both V2 drivers fail with the [TransactionError]
    that names this pair, before a token is looked up and before the
    simulator is asked anything. *)
Theorem v2_missing_pool
    (C : collaborators) (self : UniswapTransaction) (params_ : params_dict)
    (unwrapped_input silent : bool) (get_pool : V2Manager)
    (found rest : list (address * address)) (a b : address) :
  v2_pool_manager self = Some get_pool ->
  pairwise (path params_) = found ++ (a, b) :: rest ->
  Forall (fun pair => exists pool, get_pool (fst pair) (snd pair) silent = Ok pool)
    found ->
  get_pool a b silent = Raise LiquidityPoolError ->
  run (v2_swap_exact_in C self params_ unwrapped_input silent)
  = (Raise (TransactionError (PoolNotBuilt a b)), [])
  /\ run (v2_swap_exact_out C self params_ unwrapped_input silent)
     = (Raise (TransactionError (PoolNotBuilt a b)), []).
Proof.
  intros Hm Hpath Hfound Hmiss; unfold run, v2_swap_exact_in, v2_swap_exact_out.
  split; apply bind_raise; rewrite Hpath;
    now apply (v2_pool_objects_missing self silent get_pool a b).
Qed.

Lemma v2_missing_pool_witness :
  run (v2_swap_exact_in World.world
         (World.transaction "swapExactTokensForTokens" World.no_params 0)
         {| path := ["A"; "B"; "D"]; amountIn := 5; amountOut := 0;
            params := None; data := [] |} false true)
  = (Raise (TransactionError (PoolNotBuilt "B" "D")), [])
  /\ run (v2_swap_exact_out World.world
            (World.transaction "swapExactTokensForTokens" World.no_params 0)
            {| path := ["A"; "B"; "D"]; amountIn := 5; amountOut := 0;
               params := None; data := [] |} false true)
     = (Raise (TransactionError (PoolNotBuilt "B" "D")), []).
Proof.
  apply (v2_missing_pool World.world
           (World.transaction "swapExactTokensForTokens" World.no_params 0)
           {| path := ["A"; "B"; "D"]; amountIn := 5; amountOut := 0;
              params := None; data := [] |} false true
           World.get_pool_v2 [("A", "B")] [] "B" "D").
  - reflexivity.
  - reflexivity.
  - repeat constructor; eexists; reflexivity.
  - reflexivity.
Defined.

(** A path of fewer than two tokens has no pool.  On the empty path both V2
    drivers raise [IndexError], which [simulate] does not turn into a
    [TransactionError]; on a path of one token they return the empty list
    without asking the simulator, once the token manager knows the token. *)
Theorem v2_short_path
    (C : collaborators) (self : UniswapTransaction) (params_ : params_dict)
    (unwrapped_input silent : bool) :
  (path params_ = [] ->
   run (v2_swap_exact_in C self params_ unwrapped_input silent) = (Raise IndexError, [])
   /\ run (v2_swap_exact_out C self params_ unwrapped_input silent)
      = (Raise IndexError, [])
   /\ forall log, @on_bad_input (list entry) IndexError log = (Raise IndexError, log))
  /\ (forall a token,
        path params_ = [a] -> get_erc20token C (VStr a) silent = Ok token ->
        run (v2_swap_exact_in C self params_ unwrapped_input silent) = (Ok [], [])
        /\ run (v2_swap_exact_out C self params_ unwrapped_input silent) = (Ok [], [])).
Proof.
  split.
  - intros Hp; unfold run, v2_swap_exact_in, v2_swap_exact_out; rewrite Hp.
    repeat split.
  - intros a token Hp Ht; unfold run, v2_swap_exact_in, v2_swap_exact_out.
    rewrite Hp; cbn; unfold bind, lift; rewrite Ht; split; reflexivity.
Qed.

Lemma v2_short_path_witness :
  run (v2_swap_exact_in World.world
         (World.transaction "swapExactTokensForTokens" World.no_params 0)
         World.no_params false true) = (Raise IndexError, [])
  /\ run (v2_swap_exact_out World.world
            (World.transaction "swapExactTokensForTokens" World.no_params 0)
            {| path := ["A"]; amountIn := 0; amountOut := 7; params := None;
               data := [] |} false true) = (Ok [], []).
Proof.
  split.
  - apply (proj1 (v2_short_path World.world
             (World.transaction "swapExactTokensForTokens" World.no_params 0)
             World.no_params false true) eq_refl).
  - apply (proj2 (v2_short_path World.world
             (World.transaction "swapExactTokensForTokens" World.no_params 0)
             {| path := ["A"]; amountIn := 0; amountOut := 7; params := None;
                data := [] |} false true) "A" World.tokenA eq_refl eq_refl).
Defined.

(** ** The dispatch of [simulate] *)

(** Whatever the call, [simulate] lets neither a [LiquidityPoolError] nor a
    [ValueError] out: both leave it as a [TransactionError]. *)
Theorem simulate_wraps_bad_input
    (C : collaborators) (self : UniswapTransaction) (recursion_limit fuel : nat)
    (name : option string) (func_params_ : option params_dict) (silent : bool)
    (log : list sim_call) :
  match fst (simulate C self recursion_limit fuel name func_params_ silent log) with
  | Raise LiquidityPoolError | Raise (ValueError _) => False
  | _ => True
  end.
Proof.
  destruct recursion_limit as [| depth]; [exact I |].
  cbn [simulate]; unfold try_except.
  match goal with |- context [dispatch ?a ?b ?c ?d ?e ?f ?g ?h] =>
    destruct (dispatch a b c d e f g h) as [[r | e0 |] l] end;
    try exact I.
  destruct e0; exact I.
Qed.

Lemma in_tuple_cons name a rest :
  in_tuple name (a :: rest) = String.eqb name a || in_tuple name rest.
Proof. reflexivity. Qed.

(** A name that no driver branch takes, one of the liquidity, permit and
    refund functions or a name the code does not know, gives the empty list:
    no collaborator is asked and nothing is raised, whatever the
    parameters. *)
Theorem simulate_other_names
    (C : collaborators) (self : UniswapTransaction) (depth fuel : nat)
    (name : string) (func_params_ : params_dict) (silent : bool)
    (log : list sim_call) :
  taken_by_driver name = false ->
  simulate C self (S depth) fuel (Some name) (Some func_params_) silent log
  = (Ok [], log).
Proof.
  unfold taken_by_driver, exact_in_names, v3_names_; intros H.
  repeat rewrite in_tuple_cons in H.
  repeat (apply orb_false_iff in H; destruct H as [H ?]).
  repeat match goal with
         | E : _ || _ = false |- _ =>
             apply orb_false_iff in E; destruct E
         end.
  cbn [simulate]; unfold try_except, dispatch.
  repeat rewrite in_tuple_cons.
  repeat match goal with
         | E : String.eqb name _ = false |- _ => rewrite E; clear E
         | E : in_string name _ = false |- _ => rewrite E; clear E
         end.
  cbn [orb in_tuple existsb].
  destruct (in_tuple name liquidity_functions);
    [reflexivity |].
  match goal with |- context [if ?c then _ else _] => destruct c end; reflexivity.
Qed.

Lemma simulate_other_names_witness :
  simulate World.world (World.transaction "x" World.no_params 0) 1 0
    (Some "removeLiquidityETH") (Some (World.swap_ABC 1 2)) false [] = (Ok [], [])
  /\ simulate World.world (World.transaction "x" World.no_params 0) 1 0
       (Some "unwrapWETH9") (Some (World.swap_ABC 1 2)) false [] = (Ok [], [])
  /\ simulate World.world (World.transaction "x" World.no_params 0) 1 0
       (Some "sweepToken") (Some (World.swap_ABC 1 2)) false [] = (Ok [], []).
Proof.
  split; [| split];
    apply (simulate_other_names World.world
             (World.transaction "x" World.no_params 0) 0 0); reflexivity.
Defined.

(** The six names of the V2 exact-input functions, those "supporting fee on
    transfer tokens" included, are simulated by the exact-input driver, with
    the attached value as input for the two that start with
    [swapExactETH]. *)
Theorem simulate_exact_in_names
    (C : collaborators) (self : UniswapTransaction) (depth fuel : nat)
    (name : string) (func_params_ : params_dict) (silent : bool)
    (log : list sim_call) :
  In name exact_in_names ->
  simulate C self (S depth) fuel (Some name) (Some func_params_) silent log
  = try_except
      (r <- v2_swap_exact_in C self func_params_ (prefix "swapExactETH" name) silent ;;
       ret r)
      on_bad_input log.
Proof.
  intros H; cbn in H.
  repeat (destruct H as [<- | H]; [reflexivity |]); destruct H.
Qed.

Lemma simulate_exact_in_names_witness :
  simulate World.world (World.transaction "x" World.no_params 100) 1 0
    (Some "swapExactETHForTokensSupportingFeeOnTransferTokens")
    (Some (World.swap_ABC 0 0)) true []
  = try_except
      (r <- v2_swap_exact_in World.world (World.transaction "x" World.no_params 100)
              (World.swap_ABC 0 0) true true ;;
       ret r)
      on_bad_input [].
Proof.
  apply (simulate_exact_in_names World.world
           (World.transaction "x" World.no_params 100) 0 0
           "swapExactETHForTokensSupportingFeeOnTransferTokens").
  cbn; auto 10.
Defined.

Lemma prefix_in_prefixes (a : string) :
  forall s, prefix a s = true -> In a (prefixes s).
Proof.
  induction a as [| c a IH]; intros s H.
  - destruct s; left; reflexivity.
  - destruct s as [| c' s]; [discriminate |].
    cbn [prefix] in H.
    destruct (ascii_dec c c') as [<- |]; [| discriminate].
    right; apply in_map; now apply IH.
Qed.

Lemma in_string_in_substrings (a : string) :
  forall s, in_string a s = true -> In a (substrings s).
Proof.
  induction s as [| c s IH]; cbn [in_string substrings]; intros H;
    apply orb_true_iff in H as [H | H]; try discriminate;
    apply in_or_app.
  - left; now apply prefix_in_prefixes.
  - left; now apply prefix_in_prefixes.
  - right; now apply IH.
Qed.

Lemma substrings_not_exact_in (name : string) :
  in_string name "swapTokensForExactETH" = true
  \/ in_string name "swapTokensForExactTokens" = true ->
  in_tuple name exact_in_names = false.
Proof.
  intros H.
  assert (Hin : In name (substrings "swapTokensForExactETH"
                         ++ substrings "swapTokensForExactTokens")).
  { apply in_or_app; destruct H as [H | H]; [left | right];
      now apply in_string_in_substrings. }
  assert (Hall : forallb (fun s => negb (in_tuple s exact_in_names))
                   (substrings "swapTokensForExactETH"
                    ++ substrings "swapTokensForExactTokens") = true)
    by (vm_compute; reflexivity).
  rewrite forallb_forall in Hall; apply Hall in Hin.
  now apply negb_true_iff in Hin.
Qed.

(** The names of [swapTokensForExactETH] and [swapTokensForExactTokens] are
    tested with [in] against a string: every name that lies inside one of the
    two, the empty name among them, is simulated by the V2 exact-output
    driver. *)
Theorem simulate_names_inside
    (C : collaborators) (self : UniswapTransaction) (depth fuel : nat)
    (name : string) (func_params_ : params_dict) (silent : bool)
    (log : list sim_call) :
  in_string name "swapTokensForExactETH" = true
  \/ in_string name "swapTokensForExactTokens" = true ->
  simulate C self (S depth) fuel (Some name) (Some func_params_) silent log
  = try_except
      (r <- v2_swap_exact_out C self func_params_ false silent ;; ret r)
      on_bad_input log.
Proof.
  intros H; pose proof (substrings_not_exact_in name H) as Hno.
  unfold exact_in_names in Hno; repeat rewrite in_tuple_cons in Hno.
  repeat match goal with
         | E : _ || _ = false |- _ =>
             apply orb_false_iff in E; destruct E
         end.
  cbn [simulate]; unfold dispatch.
  repeat rewrite in_tuple_cons.
  repeat match goal with
         | E : String.eqb name _ = false |- _ => rewrite E; clear E
         end.
  cbn [orb in_tuple existsb].
  destruct (in_string name "swapTokensForExactETH") eqn:E1; [reflexivity |].
  destruct H as [H | H]; [discriminate |].
  now rewrite H.
Qed.

Lemma simulate_names_inside_witness :
  simulate World.world (World.transaction "x" World.no_params 0) 1 0
    (Some "") (Some (World.swap_ABC 0 100)) true []
  = try_except
      (r <- v2_swap_exact_out World.world (World.transaction "x" World.no_params 0)
              (World.swap_ABC 0 100) false true ;;
       ret r)
      on_bad_input []
  /\ simulate World.world (World.transaction "x" World.no_params 0) 1 0
       (Some "swap") (Some (World.swap_ABC 0 100)) true []
     = try_except
         (r <- v2_swap_exact_out World.world (World.transaction "x" World.no_params 0)
                 (World.swap_ABC 0 100) false true ;;
          ret r)
         on_bad_input [].
Proof.
  split;
    apply (simulate_names_inside World.world
             (World.transaction "x" World.no_params 0) 0 0);
    left; reflexivity.
Defined.

(** ** The V3 single-hop drivers *)

Ltac by_arity t :=
  destruct t as [[| ? [| ? [| ? [| ? [| ? [| ? [| ? [| ? [| ? ?]]]]]]]]] |].

Lemma unpack_exact_in_fields (t : option (list pyval)) :
  match exact_in_fields t with
  | Some (a, b, f, q) =>
      n_tokenIn (unpack_exact_in t) = Some a
      /\ n_tokenOut (unpack_exact_in t) = Some b
      /\ n_fee (unpack_exact_in t) = Some f
      /\ n_amount (unpack_exact_in t) = Some q
  | None =>
      n_tokenIn (unpack_exact_in t) = None
      /\ n_tokenOut (unpack_exact_in t) = None
      /\ n_fee (unpack_exact_in t) = None
      /\ n_amount (unpack_exact_in t) = None
  end.
Proof. by_arity t; cbn; auto. Qed.

Lemma unpack_exact_out_fields (t : option (list pyval)) :
  match exact_out_fields t with
  | Some (a, b, f, q, m, l) =>
      n_tokenIn (unpack_exact_out t) = Some a
      /\ n_tokenOut (unpack_exact_out t) = Some b
      /\ n_fee (unpack_exact_out t) = Some f
      /\ n_amount (unpack_exact_out t) = Some q
      /\ n_amountInMaximum (unpack_exact_out t) = Some m
      /\ n_sqrtPriceLimitX96 (unpack_exact_out t) = Some l
  | None =>
      n_tokenIn (unpack_exact_out t) = None
      /\ n_tokenOut (unpack_exact_out t) = None
      /\ n_fee (unpack_exact_out t) = None
      /\ n_amount (unpack_exact_out t) = None
  end.
Proof. by_arity t; cbn; auto 10. Qed.

Lemma no_shape_fields (t : option (list pyval)) :
  no_shape t -> exact_in_fields t = None /\ exact_out_fields t = None.
Proof.
  intros H; by_arity t; try (split; reflexivity);
    destruct (H _ eq_refl) as (H4 & H7 & H8); cbn in *; congruence.
Qed.

Lemma v3_get_pool_run (self : UniswapTransaction) (names : v3_names)
    (silent : bool) (get_pool : V3Manager) (a b f : pyval) (log : list sim_call) :
  v3_pool_manager self = Some get_pool ->
  n_tokenIn names = Some a -> n_tokenOut names = Some b -> n_fee names = Some f ->
  v3_get_pool self names silent log
  = match get_pool a b f silent with
    | Ok pool => (Ok pool, log)
    | Raise ManagerError => (Raise (TransactionError (CouldNotGetPool ManagerError)), log)
    | Raise LiquidityPoolError =>
        (Raise (TransactionError (CouldNotGetPool LiquidityPoolError)), log)
    | Raise e => (Raise e, log)
    | Diverge => (Diverge, log)
    end.
Proof.
  intros Hm Ha Hb Hf; unfold v3_get_pool, try_except, bind, read_attr, read_var,
    lift, ret, raise.
  rewrite Hm, Ha, Hb, Hf.
  destruct (get_pool a b f silent) as [pool | e |]; try reflexivity.
  destruct e; reflexivity.
Qed.

(** The V3 exact-input driver returns exactly when the tuple has one of the
    three arities and the manager, the token manager and the simulator answer
    for the fields of that arity; it then returns one entry, the pool with the
    state the simulator answered, after one call of the simulator. *)
Theorem v3_swap_exact_in_returns_iff
    (C : collaborators) (self : UniswapTransaction) (params_ : params_dict)
    (silent : bool) (result : list entry) (log : list sim_call) :
  run (v3_swap_exact_in C self params_ silent) = (Ok result, log)
  <-> exists a b f q get_pool pool token info final_state,
        exact_in_fields (params params_) = Some (a, b, f, q)
        /\ v3_pool_manager self = Some get_pool
        /\ get_pool a b f silent = Ok pool
        /\ get_erc20token C a silent = Ok token
        /\ v3_simulate_swap_in C pool token q = Ok (info, final_state)
        /\ result = [V3Entry pool final_state]
        /\ log = [V3SwapIn pool token q].
Proof.
  unfold run, v3_swap_exact_in.
  pose proof (unpack_exact_in_fields (params params_)) as Hn.
  destruct (exact_in_fields (params params_)) as [[[[a b] f] q] |].
  - destruct Hn as (Ha & Hb & Hf & Hq).
    destruct (v3_pool_manager self) as [get_pool |] eqn:Hm.
    + unfold bind at 1.
      rewrite (v3_get_pool_run self _ silent get_pool a b f [] Hm Ha Hb Hf).
      unfold bind, try_except, read_var, lift, ret, raise, record_call, on_revert.
      rewrite Ha, Hq.
      split.
      * intros H.
        destruct (get_pool a b f silent) as [pool | e |] eqn:Hp;
          [| destruct e; discriminate | discriminate].
        destruct (get_erc20token C a silent) as [token | e |] eqn:Ht;
          try discriminate.
        destruct (v3_simulate_swap_in C pool token q) as [[info st] | e |] eqn:Hs;
          [| destruct e; discriminate | discriminate].
        inversion H; subst.
        now exists a, b, f, q, get_pool, pool, token, info, st.
      * intros (a' & b' & f' & q' & g & pool & token & info & st
                & E & Eg & Hp & Ht & Hs & -> & ->).
        inversion E; subst; inversion Eg; subst.
        now rewrite Hp, Ht; cbn; rewrite Hs.
    + split.
      * unfold bind, v3_get_pool, try_except, bind, read_attr, raise.
        rewrite Hm; discriminate.
      * intros (? & ? & ? & ? & g & ? & ? & ? & ? & _ & Eg & _); discriminate.
  - destruct Hn as (Ha & _).
    split.
    + unfold bind at 1, v3_get_pool, try_except, bind, read_attr, read_var, raise, ret.
      rewrite Ha.
      destruct (v3_pool_manager self); discriminate.
    + intros (? & ? & ? & ? & ? & ? & ? & ? & ? & E & _); discriminate.
Qed.

(** A tuple that has none of the three arities, or a missing tuple, binds no
    name: on a transaction that has a V3 manager both V3 drivers raise
    [UnboundLocalError] before any collaborator is asked, and [simulate]
    passes it on as it is. *)
Theorem v3_no_shape
    (C : collaborators) (self : UniswapTransaction) (params_ : params_dict)
    (silent : bool) (get_pool : V3Manager) (depth fuel : nat) :
  v3_pool_manager self = Some get_pool ->
  no_shape (params params_) ->
  run (v3_swap_exact_in C self params_ silent) = (Raise UnboundLocalError, [])
  /\ run (v3_swap_exact_out C self params_ silent) = (Raise UnboundLocalError, [])
  /\ run (simulate C self (S depth) fuel (Some "exactInputSingle") (Some params_) silent)
     = (Raise UnboundLocalError, [])
  /\ run (simulate C self (S depth) fuel (Some "exactOutputSingle") (Some params_) silent)
     = (Raise UnboundLocalError, []).
Proof.
  intros Hm Hno; apply no_shape_fields in Hno as [Hi Ho].
  pose proof (unpack_exact_in_fields (params params_)) as Hni.
  pose proof (unpack_exact_out_fields (params params_)) as Hnx.
  rewrite Hi in Hni; rewrite Ho in Hnx.
  destruct Hni as (Hia & _); destruct Hnx as (Hxa & _).
  assert (Ein : run (v3_swap_exact_in C self params_ silent)
                = (Raise UnboundLocalError, [])).
  { unfold run, v3_swap_exact_in, bind at 1, v3_get_pool, try_except, bind,
      read_attr, read_var, raise, ret.
    now rewrite Hm, Hia. }
  assert (Eout : run (v3_swap_exact_out C self params_ silent)
                 = (Raise UnboundLocalError, [])).
  { unfold run, v3_swap_exact_out, bind at 1, v3_get_pool, try_except, bind,
      read_attr, read_var, raise, ret.
    now rewrite Hm, Hxa. }
  repeat split; try assumption.
  - unfold run in *; cbn [simulate]; unfold try_except, dispatch; cbn.
    unfold bind at 1; now rewrite Ein.
  - unfold run in *; cbn [simulate]; unfold try_except, dispatch; cbn.
    unfold bind at 1; now rewrite Eout.
Qed.

Lemma v3_no_shape_witness :
  run (simulate World.world (World.transaction "exactInputSingle" World.no_params 0)
         1 0 (Some "exactInputSingle")
         (Some (params_only [VStr "A"; VStr "B"; VInt 3000; VInt 100; VInt 1])) true)
  = (Raise UnboundLocalError, []).
Proof.
  apply (v3_no_shape World.world
           (World.transaction "exactInputSingle" World.no_params 0)
           (params_only [VStr "A"; VStr "B"; VInt 3000; VInt 100; VInt 1])
           true World.get_pool_v3 0 0 eq_refl).
  intros fields E; inversion E; subst; cbn; repeat split; discriminate.
Defined.

Lemma v3_swap_exact_in_returns_iff_witness :
  run (v3_swap_exact_in World.world
         (World.transaction "exactInputSingle" World.no_params 0)
         (params_only [VStr "A"; VStr "B"; VInt 3000; VStr "me"; VInt 400; VInt 1;
                       VInt 0]) true)
  = (Ok [World.entry_AB],
     [V3SwapIn (World.pool_v3 "A" "B" 3000) World.tokenA (VInt 400)]).
Proof.
  apply (proj2 (v3_swap_exact_in_returns_iff World.world
                  (World.transaction "exactInputSingle" World.no_params 0)
                  (params_only [VStr "A"; VStr "B"; VInt 3000; VStr "me"; VInt 400;
                                VInt 1; VInt 0]) true _ _)).
  exists (VStr "A"), (VStr "B"), (VInt 3000), (VInt 400), World.get_pool_v3,
    (World.pool_v3 "A" "B" 3000), World.tokenA,
    {| amount0_delta := 400; amount1_delta := -200 |}, World.state_v3.
  repeat split.
Defined.

(** The two translations of errors in the V3 drivers.  A [ManagerError] or a
    [LiquidityPoolError] of the pool manager leaves either driver as the
    [TransactionError] "Could not get pool", with no call of the simulator; an
    [EVMRevertError] of the exact-input simulator leaves the driver as the
    [TransactionError] "V3 operation could not be simulated". *)
Theorem v3_errors_translated
    (C : collaborators) (self : UniswapTransaction) (params_ : params_dict)
    (silent : bool) (get_pool : V3Manager) (a b f q : pyval) :
  v3_pool_manager self = Some get_pool ->
  exact_in_fields (params params_) = Some (a, b, f, q) ->
  (forall e, e = ManagerError \/ e = LiquidityPoolError ->
     get_pool a b f silent = Raise e ->
     run (v3_swap_exact_in C self params_ silent)
     = (Raise (TransactionError (CouldNotGetPool e)), [])
     /\ run (v3_swap_exact_out C self params_ silent)
        = (Raise (TransactionError (CouldNotGetPool e)), []))
  /\ (forall pool token,
        get_pool a b f silent = Ok pool ->
        get_erc20token C a silent = Ok token ->
        v3_simulate_swap_in C pool token q = Raise EVMRevertError ->
        run (v3_swap_exact_in C self params_ silent)
        = (Raise (TransactionError (V3NotSimulated EVMRevertError)),
           [V3SwapIn pool token q])).
Proof.
  intros Hm Hfields.
  pose proof (unpack_exact_in_fields (params params_)) as Hn.
  rewrite Hfields in Hn; destruct Hn as (Ha & Hb & Hf & Hq).
  assert (Hx : n_tokenIn (unpack_exact_out (params params_)) = Some a
               /\ n_tokenOut (unpack_exact_out (params params_)) = Some b
               /\ n_fee (unpack_exact_out (params params_)) = Some f).
  { revert Hfields; generalize (params params_) as t; intros t.
    by_arity t; cbn; intros E; inversion E; subst; auto. }
  destruct Hx as (Hxa & Hxb & Hxf).
  split.
  - intros e He Hraise; unfold run, v3_swap_exact_in, v3_swap_exact_out.
    split; unfold bind at 1.
    + rewrite (v3_get_pool_run self _ silent get_pool a b f [] Hm Ha Hb Hf), Hraise.
      destruct He as [-> | ->]; reflexivity.
    + rewrite (v3_get_pool_run self _ silent get_pool a b f [] Hm Hxa Hxb Hxf), Hraise.
      destruct He as [-> | ->]; reflexivity.
  - intros pool token Hp Ht Hs; unfold run, v3_swap_exact_in.
    unfold bind at 1.
    rewrite (v3_get_pool_run self _ silent get_pool a b f [] Hm Ha Hb Hf), Hp.
    unfold bind, try_except, read_var, lift, ret, raise, record_call, on_revert.
    rewrite Ha, Hq, Ht; cbn; now rewrite Hs.
Qed.

Lemma v3_errors_translated_witness :
  run (v3_swap_exact_in World.world
         (World.transaction "exactInputSingle" World.no_params 0)
         (params_only [VStr "A"; VInt 5; VInt 3000; VInt 1]) true)
  = (Raise (TransactionError (CouldNotGetPool ManagerError)), []).
Proof.
  apply (proj1 (v3_errors_translated World.world
                  (World.transaction "exactInputSingle" World.no_params 0)
                  (params_only [VStr "A"; VInt 5; VInt 3000; VInt 1]) true
                  World.get_pool_v3 (VStr "A") (VInt 5) (VInt 3000) (VInt 1)
                  eq_refl eq_refl) ManagerError (or_introl eq_refl) eq_refl).
Defined.

(** Without a bound the V3 exact-output driver makes no test of the derived
    input: when [amountInMaximum] is absent (the four-field shape), [None] or
    zero, the driver returns its entry whenever the manager, the token manager
    and the simulator answer, whatever the deltas. *)
Theorem v3_swap_exact_out_no_bound
    (C : collaborators) (self : UniswapTransaction) (params_ : params_dict)
    (silent : bool) (get_pool : V3Manager) (a b f q m l : pyval)
    (pool : V3LiquidityPool) (token : Erc20Token) (info : v3_swap_info)
    (final_state : v3_state) :
  v3_pool_manager self = Some get_pool ->
  exact_out_fields (params params_) = Some (a, b, f, q, m, l) ->
  m = VNone \/ m = VInt 0 ->
  get_pool a b f silent = Ok pool ->
  get_erc20token C b silent = Ok token ->
  v3_simulate_swap_out C pool token q l = Ok (info, final_state) ->
  run (v3_swap_exact_out C self params_ silent)
  = (Ok [V3Entry pool final_state], [V3SwapOut pool token q l]).
Proof.
  intros Hm Hfields Hbound Hp Ht Hs.
  pose proof (unpack_exact_out_fields (params params_)) as Hn.
  rewrite Hfields in Hn; destruct Hn as (Ha & Hb & Hf & Hq & Hmax & Hl).
  unfold run, v3_swap_exact_out; unfold bind at 1.
  rewrite (v3_get_pool_run self _ silent get_pool a b f [] Hm Ha Hb Hf), Hp.
  unfold bind, try_except, read_var, lift, ret, raise, record_call, on_revert.
  rewrite Hb, Hq, Hl, Hmax, Ht; cbn; rewrite Hs.
  destruct Hbound as [-> | ->]; reflexivity.
Qed.

Lemma v3_swap_exact_out_no_bound_witness :
  run (v3_swap_exact_out World.world
         (World.transaction "exactOutputSingle" World.no_params 0)
         (World.exactOutputSingle_AB 100 0) true)
  = (Ok [World.entry_AB],
     [V3SwapOut (World.pool_v3 "A" "B" 3000) World.tokenB (VInt 100) (VInt 0)]).
Proof.
  apply (v3_swap_exact_out_no_bound World.world
           (World.transaction "exactOutputSingle" World.no_params 0)
           (World.exactOutputSingle_AB 100 0) true World.get_pool_v3
           (VStr "A") (VStr "B") (VInt 3000) (VInt 100) (VInt 0) (VInt 0)
           (World.pool_v3 "A" "B" 3000) World.tokenB
           {| amount0_delta := 150; amount1_delta := -100 |} World.state_v3);
    try reflexivity.
  now right.
Defined.

(** C9, as the code has it.  In every V3 exact-output simulation with a bound
    that is not zero, once the manager, the token manager and the simulator
    have answered, the input the driver derives is the greater of the two
    signed deltas, [max(amount0_delta, amount1_delta)]: this is the amount it
    compares with the bound and reports in its error.  With deltas of
    opposite signs that is the positive one, the token that entered the pool,
    also when the negative delta is the larger in magnitude. *)
Theorem v3_swap_exact_out_derived_input
    (C : collaborators) (self : UniswapTransaction) (params_ : params_dict)
    (silent : bool) (get_pool : V3Manager) (a b f q l : pyval) (bound : Z)
    (pool : V3LiquidityPool) (token : Erc20Token) (info : v3_swap_info)
    (final_state : v3_state) :
  v3_pool_manager self = Some get_pool ->
  exact_out_fields (params params_) = Some (a, b, f, q, VInt bound, l) ->
  bound <> 0 ->
  get_pool a b f silent = Ok pool ->
  get_erc20token C b silent = Ok token ->
  v3_simulate_swap_out C pool token q l = Ok (info, final_state) ->
  run (v3_swap_exact_out C self params_ silent)
  = (if Z.max (amount0_delta info) (amount1_delta info) <? bound
     then Raise (TransactionError
                   (AmountInBelow (Z.max (amount0_delta info) (amount1_delta info))
                      bound))
     else Ok [V3Entry pool final_state],
     [V3SwapOut pool token q l])
  /\ (0 < amount0_delta info -> amount1_delta info <= 0 ->
      Z.max (amount0_delta info) (amount1_delta info) = amount0_delta info)
  /\ (0 < amount1_delta info -> amount0_delta info <= 0 ->
      Z.max (amount0_delta info) (amount1_delta info) = amount1_delta info).
Proof.
  intros Hm Hfields Hbound Hp Ht Hs.
  split; [| split; intros; lia].
  pose proof (unpack_exact_out_fields (params params_)) as Hn.
  rewrite Hfields in Hn; destruct Hn as (Ha & Hb & Hf & Hq & Hmax & Hl).
  unfold run, v3_swap_exact_out; unfold bind at 1.
  rewrite (v3_get_pool_run self _ silent get_pool a b f [] Hm Ha Hb Hf), Hp.
  unfold bind, try_except, read_var, lift, ret, raise, record_call, on_revert.
  rewrite Hb, Hq, Hl, Hmax, Ht; cbn [app]; rewrite Hs.
  unfold check_amountInMaximum, truthy, exact_out_amountIn, raise, ret.
  destruct (Z.eqb_spec bound 0) as [E | _]; [contradiction |]; cbn [negb].
  destruct (Z.max (amount0_delta info) (amount1_delta info) <? bound); reflexivity.
Qed.

Lemma v3_swap_exact_out_derived_input_witness :
  run (v3_swap_exact_out World.world_generous
         (World.transaction "exactOutputSingle" World.no_params 0)
         (World.exactOutputSingle_AB 500 300) true)
  = (Raise (TransactionError (AmountInBelow 100 300)),
     [V3SwapOut (World.pool_v3 "A" "B" 3000) World.tokenB (VInt 500) (VInt 0)]).
Proof.
  apply (proj1 (v3_swap_exact_out_derived_input World.world_generous
                  (World.transaction "exactOutputSingle" World.no_params 0)
                  (World.exactOutputSingle_AB 500 300) true World.get_pool_v3
                  (VStr "A") (VStr "B") (VInt 3000) (VInt 500) (VInt 0) 300
                  (World.pool_v3 "A" "B" 3000) World.tokenB
                  {| amount0_delta := 100; amount1_delta := -500 |} World.state_v3
                  eq_refl eq_refl ltac:(discriminate) eq_refl eq_refl eq_refl)).
Defined.

(** C9 as stated fails.  The simulator answers [exactOutputSingle] for 500
    with 100 entering and 500 leaving the pool; the delta larger in magnitude
    is -500.  The driver derives 100: with a bound of 300 it reports
    "amountIn (100)", and with a bound of 50, which -500 lies below and 100
    does not, it returns its entry. *)
Lemma v3_swap_exact_out_not_larger_in_magnitude :
  World.swap_out_v3_generous (World.pool_v3 "A" "B" 3000) World.tokenB
    (VInt 500) (VInt 0)
  = Ok ({| amount0_delta := 100; amount1_delta := -500 |}, World.state_v3)
  /\ larger_in_magnitude 100 (-500) = -500
  /\ fst (run (simulate World.world_generous
                 (World.transaction "exactOutputSingle"
                    (World.exactOutputSingle_AB 500 300) 0)
                 1 0 None None true))
     = Raise (TransactionError (AmountInBelow 100 300))
  /\ fst (run (simulate World.world_generous
                 (World.transaction "exactOutputSingle"
                    (World.exactOutputSingle_AB 500 50) 0)
                 1 0 None None true))
     = Ok [World.entry_AB]
  /\ (-500 <? 50) = true.
Proof. repeat split. Qed.

(** ** Multicall, further *)

(** Inside the loop of [simulate_multicall], over any list of payloads and
    whatever the decoders and the simulation of a payload do, nothing is
    raised but the [TransactionError] "Could not decode multicall": an
    exception of a decoder is passed over, an exception of the simulation
    and the unbound name after a failed first decoding are wrapped. *)
Theorem multicall_loop_raises (C : collaborators)
    (simulate_ : option string -> option params_dict -> bool -> M (list entry))
    (silent : bool) :
  forall payloads payload_func payload_args future_state log e log',
    multicall_loop C simulate_ payloads silent payload_func payload_args
      future_state log = (Raise e, log') ->
    exists cause, e = TransactionError (MulticallNotDecoded cause).
Proof.
  induction payloads as [| p payloads IH]; intros pf pa acc log e log' H;
    [discriminate |].
  cbn [multicall_loop] in H; rewrite decode_attempt in H.
  assert (Hstep : forall pf' pa' l,
    bind
      (try_except
         (fn_name <- read_var pf' ;; args <- read_var pa' ;;
          simulate_ (Some fn_name) (Some args) silent)
         (fun e => raise (TransactionError (MulticallNotDecoded e))))
      (fun r => multicall_loop C simulate_ payloads silent pf' pa' (acc ++ r))
      l = (Raise e, log') ->
    exists cause, e = TransactionError (MulticallNotDecoded cause)).
  { intros pf' pa' l Hrun; unfold bind at 1 in Hrun.
    destruct (try_except _ _ l) as [[r | e0 |] l2] eqn:Htry.
    - now apply IH in Hrun.
    - inversion Hrun; subst.
      unfold try_except in Htry.
      destruct ((fn_name <- read_var pf' ;; args <- read_var pa' ;;
                 simulate_ (Some fn_name) (Some args) silent) l)
        as [[r | e1 |] l3]; inversion Htry; eauto.
    - discriminate. }
  destruct (decode_router C p) as [[f1 a1] | e1 |];
    [| | discriminate];
    rewrite decode_attempt in H;
    destruct (decode_router2 C p) as [[f2 a2] | e2 |];
    try discriminate; eapply Hstep; exact H.
Qed.

Lemma multicall_loop_raises_witness :
  exists cause,
    TransactionError (MulticallNotDecoded UnboundLocalError)
    = TransactionError (MulticallNotDecoded cause).
Proof.
  apply (multicall_loop_raises World.world
           (simulate World.world
              (World.transaction "multicall" (World.multicall [[xff]; [x01]]) 0) 1 0)
           true [[xff]; [x01]] None None [] [] _ []).
  reflexivity.
Defined.

(** ** The flag [silent] *)

Lemma bind_ext {A B} (m1 m2 : M A) (k1 k2 : A -> M B) :
  (forall log, m1 log = m2 log) ->
  (forall a log, k1 a log = k2 a log) ->
  forall log, bind m1 k1 log = bind m2 k2 log.
Proof.
  intros Hm Hk log; unfold bind; rewrite Hm.
  destruct (m2 log) as [[a | e |] l]; [apply Hk | reflexivity | reflexivity].
Qed.

Lemma try_except_ext {A} (m1 m2 : M A) (h : exn -> M A) :
  (forall log, m1 log = m2 log) ->
  forall log, try_except m1 h log = try_except m2 h log.
Proof. intros Hm log; unfold try_except; now rewrite Hm. Qed.

Section Quiet.

Variable C : collaborators.
Variable self : UniswapTransaction.
Hypothesis quiet : silent_is_ignored C self.

Lemma v2_pool_objects_quiet pairs :
  forall pool_objects log,
    v2_pool_objects self pairs true pool_objects log
    = v2_pool_objects self pairs false pool_objects log.
Proof.
  destruct quiet as (_ & Hv2 & _).
  induction pairs as [| [a b] pairs IH]; intros acc log; [reflexivity |].
  cbn [v2_pool_objects]; apply bind_ext; [| intros; apply IH].
  apply try_except_ext; intros l.
  unfold bind, read_attr, lift, ret, raise.
  destruct (v2_pool_manager self) as [get_pool |] eqn:E; [| reflexivity].
  now rewrite (Hv2 get_pool eq_refl).
Qed.

Lemma v2_swap_exact_in_quiet params_ unwrapped_input log :
  v2_swap_exact_in C self params_ unwrapped_input true log
  = v2_swap_exact_in C self params_ unwrapped_input false log.
Proof.
  destruct quiet as (Ht & _).
  unfold v2_swap_exact_in.
  apply bind_ext; [intros; apply v2_pool_objects_quiet | intros pools ?].
  apply bind_ext; [reflexivity | intros a_in ?].
  apply bind_ext; [intros; unfold lift; now rewrite Ht | intros token_in ?].
  apply bind_ext; [reflexivity | intros a_out ?].
  apply bind_ext; [intros; unfold lift; now rewrite Ht | reflexivity].
Qed.

Lemma v2_swap_exact_out_quiet params_ unwrapped_input log :
  v2_swap_exact_out C self params_ unwrapped_input true log
  = v2_swap_exact_out C self params_ unwrapped_input false log.
Proof.
  destruct quiet as (Ht & _).
  unfold v2_swap_exact_out.
  apply bind_ext; [intros; apply v2_pool_objects_quiet | intros pools ?].
  apply bind_ext; [reflexivity | intros a_in ?].
  apply bind_ext; [intros; unfold lift; now rewrite Ht | intros token_in ?].
  apply bind_ext; [reflexivity | intros a_out ?].
  apply bind_ext; [intros; unfold lift; now rewrite Ht | reflexivity].
Qed.

Lemma v3_get_pool_quiet names log :
  v3_get_pool self names true log = v3_get_pool self names false log.
Proof.
  destruct quiet as (_ & _ & Hv3).
  unfold v3_get_pool; apply try_except_ext; intros l.
  unfold bind, read_attr, read_var, lift, ret, raise.
  destruct (v3_pool_manager self) as [get_pool |] eqn:E; [| reflexivity].
  destruct (n_tokenIn names), (n_tokenOut names), (n_fee names); try reflexivity.
  now rewrite (Hv3 get_pool eq_refl).
Qed.

Lemma v3_swap_exact_in_quiet params_ log :
  v3_swap_exact_in C self params_ true log = v3_swap_exact_in C self params_ false log.
Proof.
  destruct quiet as (Ht & _).
  unfold v3_swap_exact_in.
  apply bind_ext; [intros; apply v3_get_pool_quiet | intros pool ?].
  apply bind_ext; [| reflexivity].
  apply bind_ext; [reflexivity | intros; unfold lift; now rewrite Ht].
Qed.

Lemma v3_swap_exact_out_quiet params_ log :
  v3_swap_exact_out C self params_ true log = v3_swap_exact_out C self params_ false log.
Proof.
  destruct quiet as (Ht & _).
  unfold v3_swap_exact_out.
  apply bind_ext; [intros; apply v3_get_pool_quiet | intros pool ?].
  apply bind_ext; [| reflexivity].
  apply bind_ext; [reflexivity | intros; unfold lift; now rewrite Ht].
Qed.

End Quiet.

(** For every function name but [multicall], [exactInput] and [exactOutput],
    and with collaborators that ignore the flag, [simulate] gives the same
    outcome and asks the simulator the same questions with [silent] set and
    unset. *)
Theorem simulate_silent_irrelevant
    (C : collaborators) (self : UniswapTransaction) (recursion_limit fuel : nat)
    (name : string) (func_params_ : params_dict) (log : list sim_call) :
  silent_is_ignored C self ->
  ~ In name ["multicall"; "exactInput"; "exactOutput"] ->
  simulate C self recursion_limit fuel (Some name) (Some func_params_) true log
  = simulate C self recursion_limit fuel (Some name) (Some func_params_) false log.
Proof.
  intros quiet Hname; destruct recursion_limit as [| depth]; [reflexivity |].
  assert (Hm : String.eqb name "multicall" = false)
    by (apply String.eqb_neq; intros ->; apply Hname; cbn; auto).
  assert (Hi : String.eqb name "exactInput" = false)
    by (apply String.eqb_neq; intros ->; apply Hname; cbn; auto).
  assert (Ho : String.eqb name "exactOutput" = false)
    by (apply String.eqb_neq; intros ->; apply Hname; cbn; auto).
  cbn [simulate]; apply try_except_ext; clear log; intros log.
  unfold dispatch; rewrite Hm, Hi, Ho.
  repeat match goal with
         | |- (if ?c then _ else _) _ = (if ?c then _ else _) _ =>
             destruct c;
             [apply bind_ext; [intros |  reflexivity];
              first [ now apply v2_swap_exact_in_quiet
                    | now apply v2_swap_exact_out_quiet
                    | now apply v3_swap_exact_in_quiet
                    | now apply v3_swap_exact_out_quiet ] |]
         end.
  reflexivity.
Qed.

Lemma simulate_silent_irrelevant_witness :
  simulate World.world
    (World.transaction "swapExactTokensForTokens" (World.swap_ABC 100 0) 0) 1 0
    (Some "swapExactTokensForTokens") (Some (World.swap_ABC 100 0)) true []
  = simulate World.world
      (World.transaction "swapExactTokensForTokens" (World.swap_ABC 100 0) 0) 1 0
      (Some "swapExactTokensForTokens") (Some (World.swap_ABC 100 0)) false [].
Proof.
  apply (simulate_silent_irrelevant World.world
           (World.transaction "swapExactTokensForTokens" (World.swap_ABC 100 0) 0)
           1 0 "swapExactTokensForTokens" (World.swap_ABC 100 0) []).
  - repeat split; cbn; intros; try reflexivity;
      match goal with H : Some _ = Some _ |- _ => inversion H; subst end;
      reflexivity.
  - cbn; intros [H | [H | [H | []]]]; discriminate.
Defined.

(** ** The router registry, the constructor and [add_router] *)

Lemma lookup_app {A} (k key : string) (v : A) (d : list (string * A)) :
  lookup String.eqb k (d ++ [(key, v)])
  = match lookup String.eqb k d with
    | Some x => Some x
    | None => if String.eqb k key then Some v else None
    end.
Proof.
  induction d as [| [k' v'] d IH]; cbn [app lookup]; [reflexivity |].
  destruct (String.eqb k k'); [reflexivity | exact IH].
Qed.

Lemma add_router_inserts
    (F : factories) (routers routers' : registry) (router_address : string)
    (router_dict : router_info) :
  add_router F routers router_address router_dict = Ok routers' ->
  exists key,
    toChecksumAddress F router_address = Ok key
    /\ lookup String.eqb key routers = None
    /\ forall k,
         lookup String.eqb k routers'
         = if String.eqb k key then Some router_dict
           else lookup String.eqb k routers.
Proof.
  unfold add_router; intros H.
  destruct (toChecksumAddress F router_address) as [key | e |]; try discriminate.
  destruct (lookup String.eqb key routers) eqn:Hkey; inversion H; subst.
  exists key; repeat split; [exact Hkey |].
  intros k; rewrite lookup_app.
  destruct (String.eqb_spec k key) as [-> | Hne]; [now rewrite Hkey |].
  now destruct (lookup String.eqb k routers).
Qed.

(** Insertion and lookup.  When [add_router] succeeds, the router is found
    under the checksummed form of its address, which was not known before,
    and every other address is looked up as before: no known router is ever
    replaced.  A second [add_router] for the same address raises the
    [ValueError] "Router address already known!", whatever the dictionary
    given with it. *)
Theorem add_router_lookup
    (F : factories) (routers routers' : registry) (router_address : string)
    (router_dict : router_info) :
  add_router F routers router_address router_dict = Ok routers' ->
  (exists key,
     toChecksumAddress F router_address = Ok key
     /\ lookup String.eqb key routers = None
     /\ forall k,
          lookup String.eqb k routers'
          = if String.eqb k key then Some router_dict
            else lookup String.eqb k routers)
  /\ forall other,
       add_router F routers' router_address other
       = Raise (ValueError OtherValueError).
Proof.
  intros H; pose proof (add_router_inserts _ _ _ _ _ H) as Hins.
  split; [exact Hins |].
  destruct Hins as (key & Hkey & _ & Hlookup).
  intros other; unfold add_router; rewrite Hkey, Hlookup.
  now rewrite String.eqb_refl.
Qed.

Lemma add_router_lookup_witness :
  (exists key,
     World.checksum "0xdef1c0ded9bec7f1a1670819833240f027b25eff" = Ok key
     /\ lookup String.eqb key _routers = None
     /\ forall k,
          lookup String.eqb k
            (_routers ++ [("0xDef1C0ded9bec7F1a1670819833240f027b25EfF",
                           World.new_router)])
          = if String.eqb k key then Some World.new_router
            else lookup String.eqb k _routers)
  /\ forall other,
       add_router World.makers
         (_routers ++ [("0xDef1C0ded9bec7F1a1670819833240f027b25EfF",
                        World.new_router)])
         "0xdef1c0ded9bec7f1a1670819833240f027b25eff" other
       = Raise (ValueError OtherValueError).
Proof.
  apply (add_router_lookup World.makers _routers _
           "0xdef1c0ded9bec7f1a1670819833240f027b25eff" World.new_router).
  reflexivity.
Defined.

Lemma init_by_lookup (F : factories) (routers1 routers2 : registry)
    tx_hash tx_nonce tx_value name func_params_ router_address :
  lookup String.eqb router_address routers1
  = lookup String.eqb router_address routers2 ->
  __init__ F routers1 tx_hash tx_nonce tx_value name func_params_ router_address
  = __init__ F routers2 tx_hash tx_nonce tx_value name func_params_ router_address.
Proof. intros H; unfold __init__; now rewrite H. Qed.

(** [add_router] and the constructor.  After a successful [add_router] a
    transaction can be built for the checksummed address, from the dictionary
    that was added; transactions for the routers known before are built as
    before; and the address as it was given to [add_router], when its
    checksummed form differs and it was not known itself, is still refused by
    the constructor with the [ValueError] "Router address ... unknown!". *)
Theorem add_router_then_init
    (F : factories) (routers routers' : registry) (router_address key : string)
    (router_dict : router_info) tx_hash tx_nonce tx_value name func_params_ :
  add_router F routers router_address router_dict = Ok routers' ->
  toChecksumAddress F router_address = Ok key ->
  __init__ F routers' tx_hash tx_nonce tx_value name func_params_ key
  = __init__ F [(key, router_dict)] tx_hash tx_nonce tx_value name func_params_ key
  /\ (forall known,
        lookup String.eqb known routers <> None ->
        __init__ F routers' tx_hash tx_nonce tx_value name func_params_ known
        = __init__ F routers tx_hash tx_nonce tx_value name func_params_ known)
  /\ (router_address <> key ->
      lookup String.eqb router_address routers = None ->
      __init__ F routers' tx_hash tx_nonce tx_value name func_params_ router_address
      = Raise (ValueError OtherValueError)).
Proof.
  intros H Hkey; apply add_router_inserts in H as (key' & Hkey' & Hnew & Hlookup).
  rewrite Hkey in Hkey'; inversion Hkey'; subst key'.
  repeat split.
  - apply init_by_lookup; rewrite Hlookup; cbn [lookup].
    now rewrite String.eqb_refl.
  - intros known Hknown; apply init_by_lookup; rewrite Hlookup.
    destruct (String.eqb_spec known key) as [-> | _]; [contradiction | reflexivity].
  - intros Hne Hunknown; unfold __init__; rewrite Hlookup.
    destruct (String.eqb_spec router_address key) as [E | _]; [contradiction |].
    now rewrite Hunknown.
Qed.

Lemma add_router_then_init_witness :
  __init__ World.makers
    (_routers ++ [("0xDef1C0ded9bec7F1a1670819833240f027b25EfF", World.new_router)])
    "0x01" 7 0 "exactInputSingle" World.no_params
    "0xdef1c0ded9bec7f1a1670819833240f027b25eff"
  = Raise (ValueError OtherValueError).
Proof.
  apply (proj2 (proj2 (add_router_then_init World.makers _routers _
                         "0xdef1c0ded9bec7f1a1670819833240f027b25eff"
                         "0xDef1C0ded9bec7F1a1670819833240f027b25EfF"
                         World.new_router "0x01" 7 0 "exactInputSingle"
                         World.no_params eq_refl eq_refl))).
  - discriminate.
  - reflexivity.
Defined.

Lemma try_manager_never_raises {A} (new : address -> outcome A) (version : Z)
    (r : router_info) (e : exn) :
  try_manager new version r <> Raise e.
Proof.
  unfold try_manager.
  destruct (lookup Z.eqb version (factory_address r)) as [f |]; [| discriminate].
  destruct (new f); discriminate.
Qed.

(** Up to the assignment of [self.func_params] the constructor raises for an
    unknown router only: an exception of a manager constructor never leaves
    it. *)
Lemma init_raises_only_unknown
    (F : factories) (routers : registry)
    tx_hash tx_nonce tx_value name func_params_ router_address (e : exn) :
  __init__ F routers tx_hash tx_nonce tx_value name func_params_ router_address
  = Raise e ->
  lookup String.eqb router_address routers = None
  /\ e = ValueError OtherValueError.
Proof.
  unfold __init__.
  destruct (lookup String.eqb router_address routers) as [r |];
    [| now intros H; inversion H].
  destruct (try_manager (UniswapV2LiquidityPoolManager F) 2 r) as [v2 | e2 |] eqn:E2;
    [| now apply try_manager_never_raises in E2 | discriminate].
  destruct (try_manager (UniswapV3LiquidityPoolManager F) 3 r) as [v3 | e3 |] eqn:E3;
    [discriminate | now apply try_manager_never_raises in E3 | discriminate].
Qed.

(** The constructor raises in two cases only: for a router address that is
    no key of the registry, the [ValueError] "Router address ... unknown!";
    and for a known router when [func_params] holds a [previousBlockhash]
    that is true and no [bytes] value, the [AttributeError] of [hash.hex()].
    An exception of a manager constructor, and a factory version the router
    does not have, never leave it. *)
Theorem constructor_raises
    (F : factories) (routers : registry)
    tx_hash tx_nonce tx_value name func_params_ deadline previousBlockhash
    router_address (e : exn) :
  new_UniswapTransaction F routers tx_hash tx_nonce tx_value name func_params_
    deadline previousBlockhash router_address = Raise e ->
  (lookup String.eqb router_address routers = None
   /\ e = ValueError OtherValueError)
  \/ (lookup String.eqb router_address routers <> None
      /\ truthy previousBlockhash = true
      /\ (forall b, previousBlockhash <> VBytes b)
      /\ e = AttributeError).
Proof.
  unfold new_UniswapTransaction.
  destruct (__init__ F routers tx_hash tx_nonce tx_value name func_params_
              router_address) as [tx | e0 |] eqn:Hinit; [| | discriminate].
  - intros H; right.
    assert (Hknown : lookup String.eqb router_address routers <> None).
    { unfold __init__ in Hinit.
      destruct (lookup String.eqb router_address routers); discriminate. }
    unfold previous_block_hash in H.
    destruct (truthy previousBlockhash) eqn:Ht; [| discriminate].
    destruct previousBlockhash; inversion H; subst;
      repeat split; try assumption; discriminate.
  - intros H; inversion H; subst; left.
    now apply init_raises_only_unknown in Hinit.
Qed.

Lemma constructor_raises_witness :
  (lookup String.eqb "0xd9e1cE17f2641f24aE83637ab66a2cca9C378B9F" _routers = None
   /\ AttributeError = ValueError OtherValueError)
  \/ (lookup String.eqb "0xd9e1cE17f2641f24aE83637ab66a2cca9C378B9F" _routers
      <> None
      /\ truthy (VStr "0xabcd") = true
      /\ (forall b, VStr "0xabcd" <> VBytes b)
      /\ AttributeError = AttributeError).
Proof.
  apply (constructor_raises World.makers _routers "0x01" 7 0
           "multicall" World.no_params (VInt 1700000000)
           (VStr "0xabcd") "0xd9e1cE17f2641f24aE83637ab66a2cca9C378B9F").
  reflexivity.
Defined.

Lemma try_manager_no_factory {A} (new : address -> outcome A) (version : Z)
    (r : router_info) :
  lookup Z.eqb version (factory_address r) = None ->
  try_manager new version r = Ok None.
Proof. intros H; unfold try_manager; now rewrite H. Qed.

(** A transaction built for a router without a factory of version 3 has no
    V3 manager: the two V3 drivers, and [exactInputSingle] and
    [exactOutputSingle] through [simulate], raise [AttributeError] before
    anything else is looked at.  A transaction built for a router without a
    factory of version 2 has no V2 manager: the two V2 drivers raise
    [AttributeError] on every path of two tokens or more. *)
Theorem router_without_factory
    (F : factories) (routers : registry) (r : router_info)
    tx_hash tx_nonce tx_value name func_params_ router_address
    (tx : UniswapTransaction) (C : collaborators) :
  lookup String.eqb router_address routers = Some r ->
  __init__ F routers tx_hash tx_nonce tx_value name func_params_ router_address
  = Ok tx ->
  (lookup Z.eqb 3 (factory_address r) = None ->
   forall params_ silent depth fuel,
     run (v3_swap_exact_in C tx params_ silent) = (Raise AttributeError, [])
     /\ run (v3_swap_exact_out C tx params_ silent) = (Raise AttributeError, [])
     /\ run (simulate C tx (S depth) fuel (Some "exactInputSingle") (Some params_)
               silent) = (Raise AttributeError, [])
     /\ run (simulate C tx (S depth) fuel (Some "exactOutputSingle") (Some params_)
               silent) = (Raise AttributeError, []))
  /\ (lookup Z.eqb 2 (factory_address r) = None ->
      forall params_ unwrapped_input silent,
        (2 <= List.length (path params_))%nat ->
        run (v2_swap_exact_in C tx params_ unwrapped_input silent)
        = (Raise AttributeError, [])
        /\ run (v2_swap_exact_out C tx params_ unwrapped_input silent)
           = (Raise AttributeError, [])).
Proof.
  intros Hr Hinit; unfold __init__ in Hinit; rewrite Hr in Hinit.
  split; intros Hnone.
  - assert (Hm : v3_pool_manager tx = None).
    { rewrite (try_manager_no_factory _ 3 r Hnone) in Hinit.
      destruct (try_manager (UniswapV2LiquidityPoolManager F) 2 r);
        inversion Hinit; reflexivity. }
    intros params_ silent depth fuel.
    assert (Ein : run (v3_swap_exact_in C tx params_ silent)
                  = (Raise AttributeError, [])).
    { unfold run, v3_swap_exact_in, bind at 1, v3_get_pool, try_except, bind,
        read_attr, raise.
      now rewrite Hm. }
    assert (Eout : run (v3_swap_exact_out C tx params_ silent)
                   = (Raise AttributeError, [])).
    { unfold run, v3_swap_exact_out, bind at 1, v3_get_pool, try_except, bind,
        read_attr, raise.
      now rewrite Hm. }
    repeat split; try assumption.
    + unfold run in *; cbn [simulate]; unfold try_except, dispatch; cbn.
      unfold bind at 1; now rewrite Ein.
    + unfold run in *; cbn [simulate]; unfold try_except, dispatch; cbn.
      unfold bind at 1; now rewrite Eout.
  - assert (Hm : v2_pool_manager tx = None).
    { rewrite (try_manager_no_factory _ 2 r Hnone) in Hinit.
      destruct (try_manager (UniswapV3LiquidityPoolManager F) 3 r);
        inversion Hinit; reflexivity. }
    intros params_ unwrapped_input silent Hlen.
    destruct (path params_) as [| a [| b rest]] eqn:Hpath; cbn in Hlen; try lia.
    unfold run, v2_swap_exact_in, v2_swap_exact_out; rewrite Hpath.
    cbn [pairwise v2_pool_objects].
    split; unfold bind at 1; unfold bind at 1, try_except, bind, read_attr, raise;
      now rewrite Hm.
Qed.

Lemma router_without_factory_witness :
  run (simulate World.world
         {| hash := "0x01"; nonce := 7; value := 0; func_name := "exactInputSingle";
            func_params := World.no_params;
            v2_pool_manager := Some World.get_pool_v2; v3_pool_manager := None |}
         1 0 (Some "exactInputSingle")
         (Some (params_only [VStr "A"; VStr "B"; VInt 3000; VInt 1])) true)
  = (Raise AttributeError, []).
Proof.
  apply (proj1 (proj2 (proj2
    (proj1 (router_without_factory World.makers _routers
              {| router_name := "Sushiswap: Router"; uniswap_version := 2;
                 factory_address :=
                   [(2, "0xC0AEe478e3658e2610c5F7A4A2E1777cE9e4f2Ac")] |}
              "0x01" 7 0 "exactInputSingle" World.no_params
              "0xd9e1cE17f2641f24aE83637ab66a2cca9C378B9F" _ World.world
              eq_refl eq_refl) eq_refl
       (params_only [VStr "A"; VStr "B"; VInt 3000; VInt 1]) true 0%nat 0%nat)))).
Defined.

(** ** The encoded-path branches, further *)


(** [exactInput] and [exactOutput] on a path whose length is neither
    [20 + 23k] nor [23k] never end, with five fields and with four: the
    decoding loop runs for ever, and the simulation neither returns nor
    raises. *)
Theorem simulate_encoded_path_hangs
    (C : collaborators) (self : UniswapTransaction) (depth fuel : nat)
    (name : string) (func_params_ : params_dict) (encoded : list byte)
    (silent : bool) (log : list sim_call) :
  name = "exactInput" \/ name = "exactOutput" ->
  (exists recipient deadline amount limit,
     params func_params_
     = Some [VBytes encoded; recipient; deadline; amount; limit])
  \/ (exists recipient amount limit,
        params func_params_ = Some [VBytes encoded; recipient; amount; limit]) ->
  (forall k, List.length encoded <> (20 + 23 * k)%nat) ->
  (forall k, List.length encoded <> (23 * k)%nat) ->
  simulate C self (S depth) fuel (Some name) (Some func_params_) silent log
  = (Diverge, log).
Proof.
  intros Hname Hparams H1 H2.
  pose proof (decode_path_diverges encoded H1 H2 fuel) as Hd.
  cbn [simulate]; unfold try_except.
  destruct Hname as [-> | ->]; cbn;
    unfold exact_input, exact_output;
    destruct Hparams as [(r & d & a & m & ->) | (r & a & m & ->)]; cbn;
    unfold bind, lift; rewrite Hd; reflexivity.
Qed.

Lemma simulate_encoded_path_hangs_witness :
  simulate World.world (World.transaction "exactInput" World.no_params 0) 1 1000
    (Some "exactInput") (Some (World.encoded_router2 (repeat x00 10) 100 1)) true []
  = (Diverge, []).
Proof.
  apply (simulate_encoded_path_hangs World.world
           (World.transaction "exactInput" World.no_params 0) 0 1000 "exactInput"
           (World.encoded_router2 (repeat x00 10) 100 1) (repeat x00 10) true []).
  - now left.
  - right; now exists (VStr "me"), (VInt 100), (VInt 1).
  - intros k; cbn; lia.
  - intros k; cbn; lia.
Defined.
